(** * Quantum yield of the tomato models: a shallow embedding

    Embedding of [validation/QY/QY_wo_nitrate_ratio/QY - Tomato2022.py].

    The script loads two metabolic models, configures both, solves each with
    parsimonious FBA, divides two fluxes of each solution and writes the two
    quotients as a table.  The libraries it calls (cobra, pandas, os.path,
    print) are modelled by their effect on an explicit world: the store of
    model and table objects, the file system, standard output and the
    sequence of solver calls.  What the libraries compute on their own (the
    SBML parser, the LP solver, the rendering of numbers and tables as text)
    is an interface, instantiated only in the examples.

    Fluxes are numpy float64 values: IEEE binary64, which is the kernel's
    [float]; [/] and unary [-] are [PrimFloat.div] and [PrimFloat.opp]. *)

From Stdlib Require Import Floats.PrimFloat Strings.Ascii Strings.String.
From stdpp Require Import gmap strings list fin_maps pretty.

Set Warnings "-inexact-float".

(** ** Python exceptions and object references *)

Inductive exn : Type :=
| KeyError (key : string)          (* Series.__getitem__ on an absent label *)
| AttributeError (name : string)   (* DictList.__getattr__ on an absent id *)
| ValueError (msg : string)
| OSError (path : string)          (* the file does not exist *)
| CobraSBMLError (msg : string)    (* the parser rejected the document *)
| OptimizationError (msg : string) (* infeasible or unbounded problem *)
| ReferenceError.                  (* a reference to no live object *)

Inductive result (A : Type) : Type :=
| Ok (a : A)
| Raise (e : exn).
Arguments Ok {A} a.
Arguments Raise {A} e.

Definition loc := positive.

(** ** Data of the libraries *)

Inductive Direction : Type := Max | Min.

(** A cobra reaction: its bound pair and its column of the stoichiometric
    matrix (metabolite id to coefficient). *)
Record Reaction : Type := mkReaction {
  lower_bound : float;
  upper_bound : float;
  stoichiometry : gmap string float;
}.

(** A cobra model.  The objective is a linear combination of reaction
    fluxes, kept as its coefficients. *)
Record Model : Type := mkModel {
  reactions : gmap string Reaction;
  metabolites : gset string;
  objective : gmap string float;
  objective_direction : Direction;
}.

(** A cobra solution; [fluxes] is the Series indexed by reaction id. *)
Record Solution : Type := mkSolution {
  objective_value : float;
  status : string;
  fluxes : gmap string float;
}.

(** A pandas row label: a position of the default RangeIndex or a string. *)
Inductive Label : Type :=
| LInt (i : nat)
| LStr (s : string).

#[global] Instance Label_eq_dec : EqDecision Label.
Proof. solve_decision. Defined.

(** A pandas DataFrame of float64 columns (each a list of [float]), in column order. *)
Record DataFrame : Type := mkDataFrame {
  index : list Label;
  columns : list (string * list float);
}.

(** ** The world the script runs in *)

Record World : Type := mkWorld {
  models : gmap loc Model;        (* live cobra.Model objects *)
  frames : gmap loc DataFrame;    (* live pandas.DataFrame objects *)
  disk : gmap string string;      (* files, by path relative to the working directory *)
  stdout : list string;           (* what was printed, oldest first *)
  solves : list loc;              (* the models handed to pfba, oldest first *)
}.

Definition set_models (f : gmap loc Model → gmap loc Model) (w : World) : World :=
  mkWorld (f (models w)) (frames w) (disk w) (stdout w) (solves w).
Definition set_frames (f : gmap loc DataFrame → gmap loc DataFrame) (w : World) : World :=
  mkWorld (models w) (f (frames w)) (disk w) (stdout w) (solves w).
Definition set_disk (f : gmap string string → gmap string string) (w : World) : World :=
  mkWorld (models w) (frames w) (f (disk w)) (stdout w) (solves w).
Definition set_stdout (f : list string → list string) (w : World) : World :=
  mkWorld (models w) (frames w) (disk w) (f (stdout w)) (solves w).
Definition set_solves (f : list loc → list loc) (w : World) : World :=
  mkWorld (models w) (frames w) (disk w) (stdout w) (f (solves w)).

(** ** Computations: state passing with exceptions

    A statement maps the world to its outcome and the world it leaves; an
    exception keeps the effects that happened before it was raised. *)

Definition M (A : Type) : Type := World → result A * World.

Definition ret {A} (a : A) : M A := λ w, (Ok a, w).
Definition raise {A} (e : exn) : M A := λ w, (Raise e, w).
Definition bind {A B} (c : M A) (k : A → M B) : M B := λ w,
  match c w with
  | (Ok a, w') => k a w'
  | (Raise e, w') => (Raise e, w')
  end.

Notation "'do' x <- c ; k" := (bind c (λ x, k))
  (at level 10, x name, c at level 100, k at level 200,
   format "'[v' 'do'  x  <-  c ; '/' k ']'").
Notation "'do' ' p <- c ; k" := (bind c (λ x, match x with p => k end))
  (at level 10, p pattern, c at level 100, k at level 200,
   format "'[v' 'do'  ' p  <-  c ; '/' k ']'").
Notation "'run' c ; k" := (bind c (λ _, k))
  (at level 10, c at level 100, k at level 200,
   format "'[v' 'run'  c ; '/' k ']'").

(** ** External collaborators *)

(** The SBML parser behind [cobra.io.read_sbml_model]. *)
Class SbmlParser : Type := parse_sbml : string → result Model.

(** The LP solver behind [cobra.flux_analysis.pfba]: the solution of a
    model, or the exception of an infeasible or unbounded problem. *)
Class LpSolver : Type := solve_pfba : Model → result Solution.

(** Text rendering: pandas' rendering of one float64 cell of a CSV file, and
    [str] of a DataFrame. *)
Class Rendering : Type := {
  format_float : float → string;
  frame_to_string : DataFrame → string;
}.

(** ** os.path *)

(** [os.path.join] on a POSIX system ([posixpath.join]): a component that
    starts with the separator restarts the path; the separator is added
    unless the path so far is empty or already ends with it. *)
Definition ends_with_sep (path : string) : bool :=
  match String.get (String.length path - 1) path with
  | Some c => bool_decide (c = "/"%char)
  | None => false
  end.

Definition join2 (path b : string) : string :=
  if String.prefix "/" b then b
  else if bool_decide (path = "") || ends_with_sep path then path +:+ b
  else path +:+ "/" +:+ b.

Definition os_path_join (a : string) (p : list string) : string :=
  foldl join2 a p.

(** ** cobra *)

Definition get_model (model : loc) : M Model := λ w,
  match models w !! model with
  | Some m => (Ok m, w)
  | None => (Raise ReferenceError, w)
  end.

Definition put_model (model : loc) (m : Model) : M unit := λ w,
  (Ok tt, set_models <[model := m]> w).

(** [cobra.io.read_sbml_model(path)]: a new model object parsed from the
    file. *)
Definition read_sbml_model `{SbmlParser} (path : string) : M loc := λ w,
  match disk w !! path with
  | None => (Raise (OSError path), w)
  | Some document =>
    match parse_sbml document with
    | Raise e => (Raise e, w)
    | Ok m =>
      let model := fresh (dom (models w)) in
      (Ok model, set_models <[model := m]> w)
    end
  end.

(** [model.objective = value] for a reaction id: the objective becomes that
    reaction's flux with coefficient 1; the direction is kept. *)
Definition set_objective (model : loc) (value : string) : M unit :=
  do m <- get_model model;
  match reactions m !! value with
  | None => raise (ValueError "invalid objective")
  | Some _ =>
    put_model model
      (mkModel (reactions m) (metabolites m) {[ value := 1%float ]}
         (objective_direction m))
  end.

Definition ascii_lower (c : ascii) : ascii :=
  let n := Ascii.N_of_ascii c in
  if ((65 <=? n) && (n <=? 90))%N then Ascii.ascii_of_N (n + 32) else c.

Fixpoint lower (s : string) : string :=
  match s with
  | EmptyString => EmptyString
  | String c s' => String (ascii_lower c) (lower s')
  end.

(** [model.objective_direction = value]. *)
Definition set_objective_direction (model : loc) (value : string) : M unit :=
  do m <- get_model model;
  let value := lower value in
  if String.prefix "max" value then
    put_model model (mkModel (reactions m) (metabolites m) (objective m) Max)
  else if String.prefix "min" value then
    put_model model (mkModel (reactions m) (metabolites m) (objective m) Min)
  else raise (ValueError "Unknown objective direction").

(** [model.reactions.<id>.bounds = (lower, upper)]. *)
Definition set_bounds (model : loc) (id : string) (value : float * float) : M unit :=
  do m <- get_model model;
  match reactions m !! id with
  | None => raise (AttributeError id)
  | Some r =>
    let '(lower, upper) := value in
    if PrimFloat.ltb upper lower then
      raise (ValueError "The lower bound must be less than or equal to the upper bound")
    else
      put_model model
        (mkModel (<[id := mkReaction lower upper (stoichiometry r)]> (reactions m))
           (metabolites m) (objective m) (objective_direction m))
  end.

(** [pfba(model)]: the call is recorded, the model is handed to the solver
    as it is at that moment, and is left as it was (cobra solves inside a
    context that reverts its own changes). *)
Definition pfba `{LpSolver} (model : loc) : M Solution := λ w,
  let w := set_solves (λ calls, calls ++ [model]) w in
  match models w !! model with
  | Some m => (solve_pfba m, w)
  | None => (Raise ReferenceError, w)
  end.

(** ** The script *)

(** Lines 8 to 12. *)
Definition QY `{LpSolver} (non_diel_model diel_model : loc)
  : M (gmap string float * gmap string float) :=
  do sol_nd <- pfba non_diel_model;
  let fba_sol_nd := fluxes sol_nd in
  do sol_d <- pfba diel_model;
  let fba_sol_d := fluxes sol_d in
  ret (fba_sol_nd, fba_sol_d).

(** ** pandas *)

Definition get_frame (t : loc) : M DataFrame := λ w,
  match frames w !! t with
  | Some df => (Ok df, w)
  | None => (Raise ReferenceError, w)
  end.

Definition put_frame (t : loc) (df : DataFrame) : M unit := λ w,
  (Ok tt, set_frames <[t := df]> w).

(** [series[key]] on a Series with unique labels. *)
Definition getitem (series : gmap string float) (key : string) : M float :=
  match series !! key with
  | Some v => ret v
  | None => raise (KeyError key)
  end.

(** [pd.DataFrame(data)] for a dict of lists, given in insertion order: a
    new table object whose rows carry the default labels 0, 1, ... *)
Definition DataFrame_of_dict (data : list (string * list float)) : M loc := λ w,
  let n := match data with [] => 0 | (_, c) :: _ => length c end in
  if forallb (λ kc, bool_decide (length kc.2 = n)) data then
    let t := fresh (dom (frames w)) in
    (Ok t, set_frames <[t := mkDataFrame (LInt <$> seq 0 n) data]> w)
  else (Raise (ValueError "All arrays must be of the same length"), w).

(** [t.index = labels]. *)
Definition set_index (t : loc) (labels : list string) : M unit :=
  do df <- get_frame t;
  if bool_decide (length labels = length (index df)) then
    put_frame t (mkDataFrame (LStr <$> labels) (columns df))
  else raise (ValueError "Length mismatch").

Definition nl : string := String "010"%char EmptyString.
Definition dquote : ascii := "034"%char.

Definition label_str (l : Label) : string :=
  match l with
  | LInt i => pretty i
  | LStr s => s
  end.

(** The csv writer with minimal quoting: a field is quoted when it holds
    the delimiter, the quote character or a line break, and a quote inside
    it is then written twice. *)
Definition csv_special (sep c : ascii) : bool :=
  bool_decide (c = sep) || bool_decide (c = dquote)
  || bool_decide (c = "010"%char) || bool_decide (c = "013"%char).

Fixpoint has_special (sep : ascii) (s : string) : bool :=
  match s with
  | EmptyString => false
  | String c s' => csv_special sep c || has_special sep s'
  end.

Fixpoint double_quotes (s : string) : string :=
  match s with
  | EmptyString => EmptyString
  | String c s' =>
    if bool_decide (c = dquote) then String c (String c (double_quotes s'))
    else String c (double_quotes s')
  end.

Definition csv_field (sep : ascii) (s : string) : string :=
  if has_special sep s then String dquote (double_quotes s +:+ String dquote EmptyString)
  else s.

Definition csv_line (sep : ascii) (fields : list string) : string :=
  String.concat (String sep EmptyString) (csv_field sep <$> fields) +:+ nl.

(** The rows of text of a table: the header (an empty cell above the labels,
    then the column names), then one row per label. *)
Definition csv_rows `{Rendering} (df : DataFrame) : list (list string) :=
  (EmptyString :: (fst <$> columns df))
  :: imap (λ i l,
       label_str l
       :: ((λ kc, from_option format_float EmptyString (kc.2 !! i)) <$> columns df))
     (index df).

Definition csv_text `{Rendering} (sep : ascii) (df : DataFrame) : string :=
  String.concat EmptyString (csv_line sep <$> csv_rows df).

(** [t.to_csv(path, sep=sep)]: the file is created or replaced; every row
    ends with the line end of the system, here the POSIX one. *)
Definition to_csv `{Rendering} (t : loc) (path : string) (sep : ascii) : M unit :=
  do df <- get_frame t;
  λ w, (Ok tt, set_disk <[path := csv_text sep df]> w).

(** [print(t)]. *)
Definition print `{Rendering} (t : loc) : M unit :=
  do df <- get_frame t;
  λ w, (Ok tt, set_stdout (λ out, out ++ [frame_to_string df +:+ nl]) w).

(** ** The script, continued *)

(** Lines 16 and 17. *)
Definition load_models `{SbmlParser} : M (loc * loc) :=
  do original_model <-
    read_sbml_model
      (os_path_join ".." [".."; ".."; "examples"; "models"; "tomato_Sl2183.xml"]);
  do diel_tomato_model <-
    read_sbml_model
      (os_path_join ".."
         [".."; ".."; "examples"; "models"; "diel_tomato2022_model_wo_nitrate.xml"]);
  ret (original_model, diel_tomato_model).

(** Lines 19 to 21.  As in Python, the literal 0.11 denotes the nearest
    binary64 value, 0x1.c28f5c28f5c29p-4. *)
Definition configure_original_model (original_model : loc) : M unit :=
  run set_objective original_model "EX_photon_h";
  run set_objective_direction original_model "max";
  set_bounds original_model "BIOMASS_STEM" (0.11, 0.11)%float.

(** Lines 22 to 24. *)
Definition configure_diel_tomato_model (diel_tomato_model : loc) : M unit :=
  run set_objective diel_tomato_model "EX_photon_h_Day";
  run set_objective_direction diel_tomato_model "max";
  set_bounds diel_tomato_model "Biomass_Total" (0.11, 0.11)%float.

(** Lines 28 to 30: the dict with its one key; the subscripts are evaluated
    left to right, [a / - b] is [a / (- b)]. *)
Definition data_quantum_assimilation
    (fba_sol_non_diel fba_sol_diel_model : gmap string float)
  : M (list (string * list float)) :=
  do rbpch <- getitem fba_sol_non_diel "RBPCh";
  do photon <- getitem fba_sol_non_diel "EX_photon_h";
  let qy_non_diel := PrimFloat.div rbpch (PrimFloat.opp photon) in
  do rbpch_day <- getitem fba_sol_diel_model "RBPCh_Day";
  do photon_day <- getitem fba_sol_diel_model "EX_photon_h_Day";
  let qy_diel := PrimFloat.div rbpch_day (PrimFloat.opp photon_day) in
  ret [("Quantum Yield", [qy_non_diel; qy_diel])].

(** Lines 32 and 34. *)
Definition build_tabel (data : list (string * list float)) : M loc :=
  do tabel <- DataFrame_of_dict data;
  run set_index tabel ["Original Model"; "Created Diel Model"];
  ret tabel.

(** Lines 36 and 38. *)
Definition emit_tabel `{Rendering} (tabel : loc) : M unit :=
  run to_csv tabel "QY_Tomato22.csv" ","%char;
  print tabel.

(** Lines 28 to 34: from the two flux mappings to the labelled table. *)
Definition assemble (fba_sol_non_diel fba_sol_diel_model : gmap string float) : M loc :=
  do data <- data_quantum_assimilation fba_sol_non_diel fba_sol_diel_model;
  build_tabel data.

(** Lines 28 to 38: from the two flux mappings to the outputs. *)
Definition report `{Rendering}
    (fba_sol_non_diel fba_sol_diel_model : gmap string float) : M unit :=
  do tabel <- assemble fba_sol_non_diel fba_sol_diel_model;
  emit_tabel tabel.

(** Lines 16 to 24: the two models loaded and configured, none solved yet. *)
Definition prepare_models `{SbmlParser} : M (loc * loc) :=
  do '(original_model, diel_tomato_model) <- load_models;
  run configure_original_model original_model;
  run configure_diel_tomato_model diel_tomato_model;
  ret (original_model, diel_tomato_model).

(** Lines 16 to 26: from the files to the two flux mappings. *)
Definition solve_models `{SbmlParser, LpSolver}
  : M (gmap string float * gmap string float) :=
  do '(original_model, diel_tomato_model) <- prepare_models;
  QY original_model diel_tomato_model.

(** The [__main__] block. *)
Definition main `{SbmlParser, LpSolver, Rendering} : M unit :=
  do '(fba_sol_non_diel, fba_sol_diel_model) <- solve_models;
  report fba_sol_non_diel fba_sol_diel_model.

(** [df.loc[label, column]], for reading a table in statements. *)
Definition cell (df : DataFrame) (label : string) (column : string) : option float :=
  match list_find (λ kc, kc.1 = column) (columns df),
        list_find (λ l, l = LStr label) (index df) with
  | Some (_, (_, values)), Some (i, _) => values !! i
  | _, _ => None
  end.

(** ** Notions used in the statements *)

(** The quotient the script forms of a carbon-fixation flux and a photon
    uptake flux. *)
Definition ratio (carbon photon : float) : float :=
  PrimFloat.div carbon (PrimFloat.opp photon).

(** The first key of the four that its mapping lacks, in the order the
    script looks them up. *)
Definition first_missing (nd d : gmap string float) : option string :=
  if nd !! "RBPCh" is None then Some "RBPCh"
  else if nd !! "EX_photon_h" is None then Some "EX_photon_h"
  else if d !! "RBPCh_Day" is None then Some "RBPCh_Day"
  else if d !! "EX_photon_h_Day" is None then Some "EX_photon_h_Day"
  else None.

(** The table the script is meant to end with, for two given values. *)
Definition tabel_of (qy_non_diel qy_diel : float) : DataFrame :=
  mkDataFrame [LStr "Original Model"; LStr "Created Diel Model"]
    [("Quantum Yield", [qy_non_diel; qy_diel])].

(** A computation preserves a relation between worlds when every run of it,
    ended normally or by an exception, leaves a world related to the one
    it started in. *)
Definition preserves {A} (R : relation World) (c : M A) : Prop :=
  ∀ w, R w (c w).2.

(** What is visible from outside, and the table objects, are the same. *)
Definition same_outputs : relation World := λ w w',
  disk w' = disk w ∧ stdout w' = stdout w ∧ frames w' = frames w.

(** Two states of a model that differ at most in the objective, in the
    direction and in the bound pair of reaction [id]. *)
Definition model_frame (id : string) : relation Model := λ m m',
  metabolites m' = metabolites m
  ∧ dom (reactions m') = dom (reactions m)
  ∧ (∀ other, other ≠ id → reactions m' !! other = reactions m !! other)
  ∧ stoichiometry <$> reactions m' !! id = stoichiometry <$> reactions m !! id.

(** Two worlds that differ at most in the model object [model], and there
    as [model_frame] allows. *)
Definition config_frame (model : loc) (id : string) : relation World := λ w w',
  frames w' = frames w ∧ disk w' = disk w ∧ stdout w' = stdout w
  ∧ solves w' = solves w
  ∧ dom (models w') = dom (models w)
  ∧ (∀ other, other ≠ model → models w' !! other = models w !! other)
  ∧ option_Forall2 (model_frame id) (models w !! model) (models w' !! model).

(** The shape the two configuration blocks share. *)
Definition configure (model : loc) (objective_id fixed_id : string) : M unit :=
  run set_objective model objective_id;
  run set_objective_direction model "max";
  set_bounds model fixed_id (0.11, 0.11)%float.

(** A model set up as a row of the configuration table says: the objective
    is the flux of [objective_id] alone, to be maximised, and both bounds
    of [fixed_id] are 0.11. *)
Definition configured_as (objective_id fixed_id : string) (m : Model) : Prop :=
  objective m = {[ objective_id := 1%float ]}
  ∧ objective_direction m = Max
  ∧ ∃ r, reactions m !! fixed_id = Some r
         ∧ lower_bound r = 0.11%float ∧ upper_bound r = 0.11%float.

(** ** A small concrete instance, for the examples

    Two one-compartment toy models, a parser that recognises two documents,
    a solver that answers by the objective it is asked to optimise, and a
    rendering that knows the numbers of the example. *)

Module Toy.

Definition reaction (lb ub : float) : Reaction := mkReaction lb ub ∅.

Definition tomato : Model :=
  mkModel
    (<["EX_photon_h" := reaction (-1000) 0]>
     (<["RBPCh" := reaction 0 1000]>
      (<["BIOMASS_STEM" := reaction 0 1000]> ∅)))
    {[ "co2"; "photon" ]}
    {[ "BIOMASS_STEM" := 1%float ]}
    Min.

Definition diel_tomato : Model :=
  mkModel
    (<["EX_photon_h_Day" := reaction (-1000) 0]>
     (<["RBPCh_Day" := reaction 0 1000]>
      (<["Biomass_Total" := reaction 0 1000]> ∅)))
    {[ "co2_Day"; "photon_Day" ]}
    {[ "Biomass_Total" := 1%float ]}
    Min.

Definition fluxes_nd : gmap string float :=
  <["RBPCh" := 10%float]> (<["EX_photon_h" := (-20)%float]> ∅).

Definition fluxes_d : gmap string float :=
  <["RBPCh_Day" := 5%float]> (<["EX_photon_h_Day" := (-10)%float]> ∅).

Definition parser : SbmlParser := λ document,
  if bool_decide (document = "<sbml>tomato</sbml>") then Ok tomato
  else if bool_decide (document = "<sbml>diel</sbml>") then Ok diel_tomato
  else Raise (CobraSBMLError "not a model").

Definition solver : LpSolver := λ m,
  if bool_decide (is_Some (objective m !! "EX_photon_h")) then
    Ok (mkSolution (-20) "optimal" fluxes_nd)
  else if bool_decide (is_Some (objective m !! "EX_photon_h_Day")) then
    Ok (mkSolution (-10) "optimal" fluxes_d)
  else Raise (OptimizationError "infeasible").

(** A solver whose every problem is infeasible. *)
Definition failing_solver : LpSolver := λ _, Raise (OptimizationError "infeasible").

(** A solver whose solutions carry no flux at all. *)
Definition empty_solver : LpSolver := λ _, Ok (mkSolution 0 "optimal" ∅).

Definition rendering : Rendering := {|
  format_float v := if PrimFloat.eqb v 0.5 then "0.5" else "nan";
  frame_to_string df := String.concat " " (label_str <$> index df);
|}.

Definition tomato_path : string := "../../../examples/models/tomato_Sl2183.xml".
Definition diel_path : string :=
  "../../../examples/models/diel_tomato2022_model_wo_nitrate.xml".

(** Both model files are present; nothing else has happened yet. *)
Definition world : World :=
  mkWorld ∅ ∅
    (<[tomato_path := "<sbml>tomato</sbml>"]>
     (<[diel_path := "<sbml>diel</sbml>"]> ∅))
    [] [].

(** The two toy models already loaded as objects 1 and 2. *)
Definition loaded : World :=
  mkWorld (<[1%positive := tomato]> (<[2%positive := diel_tomato]> ∅)) ∅ ∅ [] [].

(** The same two objects after the configuration blocks. *)
Definition tomato_configured : Model :=
  mkModel (<["BIOMASS_STEM" := reaction 0.11 0.11]> (reactions tomato))
    (metabolites tomato) {[ "EX_photon_h" := 1%float ]} Max.

Definition diel_tomato_configured : Model :=
  mkModel (<["Biomass_Total" := reaction 0.11 0.11]> (reactions diel_tomato))
    (metabolites diel_tomato) {[ "EX_photon_h_Day" := 1%float ]} Max.

Definition configured : World :=
  mkWorld
    (<[1%positive := tomato_configured]> (<[2%positive := diel_tomato_configured]> ∅))
    ∅ ∅ [] [].

(** The world the solves leave when the solutions hold no flux, and the
    world a complete run leaves. *)
Definition solved : World := (@solve_models parser empty_solver world).2.
Definition finished : World := (@main parser solver rendering world).2.

(** Mappings that differ from the ones above in the other model's keys
    only. *)
Definition other_fluxes_nd : gmap string float :=
  <["RBPCh" := 3%float]> (<["EX_photon_h" := (-4)%float]> ∅).

Definition other_fluxes_d : gmap string float :=
  <["RBPCh_Day" := 7%float]> (<["EX_photon_h_Day" := (-8)%float]> ∅).

End Toy.

(** ** Notions used in the statements about whole runs *)

(** The two paths lines 16 and 17 build. *)
Definition original_model_path : string :=
  os_path_join ".." [".."; ".."; "examples"; "models"; "tomato_Sl2183.xml"].

Definition diel_model_path : string :=
  os_path_join ".."
    [".."; ".."; "examples"; "models"; "diel_tomato2022_model_wo_nitrate.xml"].

(** A model after the first two statements of a configuration block. *)
Definition objective_set (objective_id : string) (m : Model) : Model :=
  mkModel (reactions m) (metabolites m) {[ objective_id := 1%float ]} Max.

(** A model after all three statements of a configuration block. *)
Definition configured (objective_id fixed_id : string) (m : Model) : Model :=
  mkModel
    (alter (λ r, mkReaction 0.11 0.11 (stoichiometry r)) fixed_id (reactions m))
    (metabolites m) {[ objective_id := 1%float ]} Max.

(** The two model files are there and parse to [m_nd] and [m_d]. *)
Definition model_files `{SbmlParser} (w : World) (m_nd m_d : Model) : Prop :=
  (∃ document, disk w !! original_model_path = Some document
               ∧ parse_sbml document = Ok m_nd)
  ∧ (∃ document, disk w !! diel_model_path = Some document
                 ∧ parse_sbml document = Ok m_d).

(** The two models hold the reactions the configuration blocks name. *)
Definition has_named_reactions (m_nd m_d : Model) : Prop :=
  is_Some (reactions m_nd !! "EX_photon_h")
  ∧ is_Some (reactions m_nd !! "BIOMASS_STEM")
  ∧ is_Some (reactions m_d !! "EX_photon_h_Day")
  ∧ is_Some (reactions m_d !! "Biomass_Total").

(** The references of the first and of the second model object a run
    creates in [w]. *)
Definition first_model (w : World) : loc := fresh (dom (models w)).
Definition second_model (w : World) : loc :=
  fresh (dom (<[first_model w := mkModel ∅ ∅ ∅ Min]> (models w))).

(** The world after lines 16 to 24, for files that parse to [m_nd] and
    [m_d]. *)
Definition prepared (m_nd m_d : Model) (w : World) : World :=
  set_models
    (λ ms, <[second_model w := configured "EX_photon_h_Day" "Biomass_Total" m_d]>
             (<[first_model w := configured "EX_photon_h" "BIOMASS_STEM" m_nd]> ms))
    w.

(** Instances for the edge cases: models that lack a reaction the script
    names, and a solver that fails on the diel problem only. *)
Module Edge.

Definition no_objective : Model :=
  mkModel {[ "BIOMASS_STEM" := Toy.reaction 0 1000 ]} ∅ ∅ Min.

Definition no_biomass : Model :=
  mkModel {[ "EX_photon_h" := Toy.reaction (-1000) 0 ]} ∅ ∅ Min.

Definition no_objective_day : Model :=
  mkModel {[ "Biomass_Total" := Toy.reaction 0 1000 ]} ∅ ∅ Min.

Definition no_biomass_total : Model :=
  mkModel {[ "EX_photon_h_Day" := Toy.reaction (-1000) 0 ]} ∅ ∅ Min.

Definition world_of (m : Model) : World :=
  mkWorld {[ 1%positive := m ]} ∅ ∅ [] [].

Definition diel_failing_solver : LpSolver := λ m,
  if bool_decide (is_Some (objective m !! "EX_photon_h")) then
    Ok (mkSolution (-20) "optimal" Toy.fluxes_nd)
  else Raise (OptimizationError "infeasible").

(** Nothing on disk. *)
Definition bare : World := mkWorld ∅ ∅ ∅ [] [].

(** The model files of [Toy.world] beside an older result file, a table
    object and earlier output. *)
Definition busy : World :=
  mkWorld {[ 5%positive := Toy.tomato ]} {[ 1%positive := tabel_of 1 2 ]}
    (<["QY_Tomato22.csv" := "old"]> (disk Toy.world))
    ["earlier output"] [5%positive].

(** Only the non-diel model file is there. *)
Definition tomato_only : World :=
  mkWorld ∅ ∅ {[ Toy.tomato_path := "<sbml>tomato</sbml>" ]} [] [].

End Edge.

(** * Properties *)

(** ** Running computations *)

Lemma bind_Ok {A B} (c : M A) (k : A → M B) w a w' :
  c w = (Ok a, w') → bind c k w = k a w'.
Proof. unfold bind. by intros ->. Qed.

Lemma bind_Raise {A B} (c : M A) (k : A → M B) w e w' :
  c w = (Raise e, w') → bind c k w = (Raise e, w').
Proof. unfold bind. by intros ->. Qed.

(** A sequence succeeds only if its first part did. *)
Lemma bind_Ok_inv {A B} (c : M A) (k : A → M B) w b w' :
  bind c k w = (Ok b, w') → ∃ a w1, c w = (Ok a, w1) ∧ k a w1 = (Ok b, w').
Proof.
  unfold bind. destruct (c w) as [[a|e] w1]; [eauto | discriminate].
Qed.

Lemma get_model_Some model m w :
  models w !! model = Some m → get_model model w = (Ok m, w).
Proof. unfold get_model. by intros ->. Qed.

Lemma get_frame_Some t df w :
  frames w !! t = Some df → get_frame t w = (Ok df, w).
Proof. unfold get_frame. by intros ->. Qed.

(** ** The solver calls of [QY] *)

Section solving.
Context `{LpSolver}.

Lemma pfba_Some model m w :
  models w !! model = Some m →
  pfba model w = (solve_pfba m, set_solves (λ calls, calls ++ [model]) w).
Proof. unfold pfba. cbn. by intros ->. Qed.

Lemma pfba_solves model w :
  solves (pfba model w).2 = solves w ++ [model].
Proof. unfold pfba. cbn. by destruct (models w !! model). Qed.

Lemma pfba_models model w :
  models (pfba model w).2 = models w.
Proof. unfold pfba. cbn. by destruct (models w !! model). Qed.

(** C3: when the solver has a solution for each of the two models, [QY]
    hands both to pfba, the non-diel one first, and returns the pair of
    the two solutions' flux mappings as they are: the first component is
    the non-diel solution's, the second the diel solution's.  Nothing
    else of the world changes. *)
Theorem QY_returns_both_fluxes non_diel_model diel_model w m_nd m_d sol_nd sol_d :
  models w !! non_diel_model = Some m_nd →
  models w !! diel_model = Some m_d →
  solve_pfba m_nd = Ok sol_nd →
  solve_pfba m_d = Ok sol_d →
  QY non_diel_model diel_model w =
    (Ok (fluxes sol_nd, fluxes sol_d),
     set_solves (λ calls, calls ++ [non_diel_model; diel_model]) w).
Proof.
  intros Hnd Hd Snd Sd. unfold QY.
  erewrite bind_Ok; last by rewrite (pfba_Some _ _ _ Hnd), Snd.
  erewrite bind_Ok; last by rewrite (pfba_Some _ m_d), Sd.
  unfold ret, set_solves. cbn. by rewrite <- app_assoc.
Qed.

(** C9: the two solves are ordered.  Whatever happens, the calls [QY]
    adds start with the non-diel model and the diel model can only follow
    it: either the non-diel model alone was handed to pfba and [QY] ended
    with an exception, or both were, in that order.  And when the solve of
    the non-diel model raises, [QY] ends with that exception, returns no
    pair, and has handed only the non-diel model to pfba. *)
Theorem QY_stops_at_first_failure non_diel_model diel_model w :
  ((solves (QY non_diel_model diel_model w).2 = solves w ++ [non_diel_model]
    ∧ ∃ e, (QY non_diel_model diel_model w).1 = Raise e)
   ∨ solves (QY non_diel_model diel_model w).2
     = solves w ++ [non_diel_model; diel_model])
  ∧ ∀ m_nd e,
      models w !! non_diel_model = Some m_nd →
      solve_pfba m_nd = Raise e →
      QY non_diel_model diel_model w =
        (Raise e, set_solves (λ calls, calls ++ [non_diel_model]) w).
Proof.
  split.
  - unfold QY, bind.
    pose proof (pfba_solves non_diel_model w) as H1.
    destruct (pfba non_diel_model w) as [[sol_nd|e] w1]; cbn in H1; [|left; eauto].
    pose proof (pfba_solves diel_model w1) as H2.
    destruct (pfba diel_model w1) as [[sol_d|e] w2]; cbn in *;
      right; by rewrite H2, H1, <- app_assoc.
  - intros m_nd e Hnd Snd. unfold QY.
    erewrite bind_Raise; [done|]. by rewrite (pfba_Some _ _ _ Hnd), Snd.
Qed.

End solving.

(** ** The two ratios *)

Lemma getitem_Some (series : gmap string float) key v w :
  series !! key = Some v → getitem series key w = (Ok v, w).
Proof. unfold getitem. by intros ->. Qed.

Lemma getitem_None (series : gmap string float) key w :
  series !! key = None → getitem series key w = (Raise (KeyError key), w).
Proof. unfold getitem. by intros ->. Qed.

Lemma getitem_Ok_inv (series : gmap string float) key v w w' :
  getitem series key w = (Ok v, w') → series !! key = Some v ∧ w' = w.
Proof.
  unfold getitem. destruct (series !! key); cbv [ret raise]; by intros [= -> ->].
Qed.

Lemma data_quantum_assimilation_Ok nd d a b c e w :
  nd !! "RBPCh" = Some a → nd !! "EX_photon_h" = Some b →
  d !! "RBPCh_Day" = Some c → d !! "EX_photon_h_Day" = Some e →
  data_quantum_assimilation nd d w =
    (Ok [("Quantum Yield", [ratio a b; ratio c e])], w).
Proof.
  intros Ha Hb Hc He. unfold data_quantum_assimilation.
  do 4 (erewrite bind_Ok; last by apply getitem_Some).
  done.
Qed.

Lemma data_quantum_assimilation_Ok_inv nd d data w w' :
  data_quantum_assimilation nd d w = (Ok data, w') →
  ∃ a b c e,
    nd !! "RBPCh" = Some a ∧ nd !! "EX_photon_h" = Some b ∧
    d !! "RBPCh_Day" = Some c ∧ d !! "EX_photon_h_Day" = Some e ∧
    data = [("Quantum Yield", [ratio a b; ratio c e])] ∧ w' = w.
Proof.
  unfold data_quantum_assimilation. intros H.
  apply bind_Ok_inv in H as (a & w1 & [Ha ->]%getitem_Ok_inv & H).
  apply bind_Ok_inv in H as (b & w1 & [Hb ->]%getitem_Ok_inv & H).
  apply bind_Ok_inv in H as (c & w1 & [Hc ->]%getitem_Ok_inv & H).
  apply bind_Ok_inv in H as (e & w1 & [He ->]%getitem_Ok_inv & H).
  injection H as <- <-. by exists a, b, c, e.
Qed.

Lemma data_quantum_assimilation_Raise nd d key w :
  first_missing nd d = Some key →
  data_quantum_assimilation nd d w = (Raise (KeyError key), w).
Proof.
  unfold first_missing, data_quantum_assimilation. intros H.
  destruct (nd !! "RBPCh") as [a|] eqn:Ha; last first.
  { injection H as <-. erewrite bind_Raise; [done|]. by apply getitem_None. }
  erewrite bind_Ok; last by apply getitem_Some.
  destruct (nd !! "EX_photon_h") as [b|] eqn:Hb; last first.
  { injection H as <-. erewrite bind_Raise; [done|]. by apply getitem_None. }
  erewrite bind_Ok; last by apply getitem_Some.
  destruct (d !! "RBPCh_Day") as [c|] eqn:Hc; last first.
  { injection H as <-. erewrite bind_Raise; [done|]. by apply getitem_None. }
  erewrite bind_Ok; last by apply getitem_Some.
  destruct (d !! "EX_photon_h_Day") as [e|] eqn:He; last first.
  { injection H as <-. erewrite bind_Raise; [done|]. by apply getitem_None. }
  discriminate.
Qed.

Lemma some_key_missing nd d :
  nd !! "RBPCh" = None ∨ nd !! "EX_photon_h" = None ∨
  d !! "RBPCh_Day" = None ∨ d !! "EX_photon_h_Day" = None →
  ∃ key, first_missing nd d = Some key
         ∧ key ∈ ["RBPCh"; "EX_photon_h"; "RBPCh_Day"; "EX_photon_h_Day"].
Proof.
  unfold first_missing. intros H.
  destruct (nd !! "RBPCh"); [|eexists; split; [done|repeat constructor]].
  destruct (nd !! "EX_photon_h"); [|eexists; split; [done|repeat constructor]].
  destruct (d !! "RBPCh_Day"); [|eexists; split; [done|repeat constructor]].
  destruct (d !! "EX_photon_h_Day"); [|eexists; split; [done|repeat constructor]].
  by destruct H as [?|[?|[?|?]]].
Qed.

(** C1: for every pair of flux mappings that hold the four keys, the
    non-diel value is the flux at RBPCh divided by the negated flux at
    EX_photon_h, and the diel value is the flux at RBPCh_Day divided by the
    negated flux at EX_photon_h_Day; for the mappings
    {RBPCh: 10, EX_photon_h: -20} and {RBPCh_Day: 5, EX_photon_h_Day: -10}
    both values are 0.5. *)
Theorem quantum_yield_is_flux_ratio :
  (∀ (nd d : gmap string float) a b c e w,
      nd !! "RBPCh" = Some a → nd !! "EX_photon_h" = Some b →
      d !! "RBPCh_Day" = Some c → d !! "EX_photon_h_Day" = Some e →
      data_quantum_assimilation nd d w =
        (Ok [("Quantum Yield",
              [PrimFloat.div a (PrimFloat.opp b); PrimFloat.div c (PrimFloat.opp e)])],
         w))
  ∧ ∀ w,
      data_quantum_assimilation
        (<["RBPCh" := 10%float]> (<["EX_photon_h" := (-20)%float]> ∅))
        (<["RBPCh_Day" := 5%float]> (<["EX_photon_h_Day" := (-10)%float]> ∅)) w
      = (Ok [("Quantum Yield", [0.5%float; 0.5%float])], w).
Proof.
  split.
  - intros. by apply data_quantum_assimilation_Ok.
  - intros w.
    by rewrite (data_quantum_assimilation_Ok _ _ 10 (-20) 5 (-10)).
Qed.

(** The general part of C1 at the example mappings. *)
Lemma quantum_yield_is_flux_ratio_witness :
  data_quantum_assimilation Toy.fluxes_nd Toy.fluxes_d Toy.world
  = (Ok [("Quantum Yield",
          [PrimFloat.div 10 (PrimFloat.opp (-20)); PrimFloat.div 5 (PrimFloat.opp (-10))])],
     Toy.world).
Proof.
  apply (proj1 quantum_yield_is_flux_ratio); reflexivity.
Defined.

(** ** The table *)

Lemma DataFrame_of_dict_one_column name (v1 v2 : float) w :
  DataFrame_of_dict [(name, [v1; v2])] w =
    (Ok (fresh (dom (frames w))),
     set_frames <[fresh (dom (frames w)) :=
                    mkDataFrame [LInt 0; LInt 1] [(name, [v1; v2])]]> w).
Proof. reflexivity. Qed.

Lemma build_tabel_two_values (v1 v2 : float) w :
  build_tabel [("Quantum Yield", [v1; v2])] w =
    (Ok (fresh (dom (frames w))),
     set_frames <[fresh (dom (frames w)) := tabel_of v1 v2]> w).
Proof.
  unfold build_tabel.
  erewrite bind_Ok; last by apply DataFrame_of_dict_one_column.
  unfold set_index.
  erewrite bind_Ok; last first.
  { erewrite bind_Ok; last by apply get_frame_Some, lookup_insert_eq.
    cbn. reflexivity. }
  unfold ret, set_frames, tabel_of. cbn. by rewrite insert_insert_eq.
Qed.

Lemma assemble_Ok nd d a b c e w :
  nd !! "RBPCh" = Some a → nd !! "EX_photon_h" = Some b →
  d !! "RBPCh_Day" = Some c → d !! "EX_photon_h_Day" = Some e →
  assemble nd d w =
    (Ok (fresh (dom (frames w))),
     set_frames <[fresh (dom (frames w)) := tabel_of (ratio a b) (ratio c e)]> w).
Proof.
  intros. unfold assemble.
  erewrite bind_Ok; last by apply data_quantum_assimilation_Ok.
  apply build_tabel_two_values.
Qed.

Lemma assemble_Ok_inv nd d tabel w w' :
  assemble nd d w = (Ok tabel, w') →
  ∃ a b c e,
    nd !! "RBPCh" = Some a ∧ nd !! "EX_photon_h" = Some b ∧
    d !! "RBPCh_Day" = Some c ∧ d !! "EX_photon_h_Day" = Some e ∧
    tabel = fresh (dom (frames w)) ∧
    w' = set_frames <[tabel := tabel_of (ratio a b) (ratio c e)]> w.
Proof.
  intros H. pose proof H as H'. unfold assemble in H'.
  apply bind_Ok_inv in H' as (data & w1 & Hdata & _).
  apply data_quantum_assimilation_Ok_inv in Hdata
    as (a & b & c & e & Ha & Hb & Hc & He & _ & _).
  rewrite (assemble_Ok _ _ _ _ _ _ _ Ha Hb Hc He) in H.
  injection H as <- <-. by exists a, b, c, e.
Qed.

Lemma assemble_Raise nd d key w :
  first_missing nd d = Some key →
  assemble nd d w = (Raise (KeyError key), w).
Proof.
  intros. unfold assemble.
  erewrite bind_Raise; [done|]. by apply data_quantum_assimilation_Raise.
Qed.

Section output.
Context `{Rendering}.

Lemma to_csv_Some tabel df path sep w :
  frames w !! tabel = Some df →
  to_csv tabel path sep w = (Ok (), set_disk <[path := csv_text sep df]> w).
Proof.
  intros Hdf. unfold to_csv. by erewrite bind_Ok; last by apply get_frame_Some.
Qed.

Lemma print_Some tabel df w :
  frames w !! tabel = Some df →
  print tabel w =
    (Ok (), set_stdout (λ out, out ++ [frame_to_string df +:+ nl]) w).
Proof.
  intros Hdf. unfold print. by erewrite bind_Ok; last by apply get_frame_Some.
Qed.

Lemma emit_tabel_Some tabel df w :
  frames w !! tabel = Some df →
  emit_tabel tabel w =
    (Ok (),
     set_stdout (λ out, out ++ [frame_to_string df +:+ nl])
       (set_disk <["QY_Tomato22.csv" := csv_text "," df]> w)).
Proof.
  intros Hdf. unfold emit_tabel.
  erewrite bind_Ok; last by apply to_csv_Some.
  by apply print_Some.
Qed.

(** Writing and printing read the table and leave every table object as
    it is. *)
Lemma emit_tabel_frames tabel w :
  frames (emit_tabel tabel w).2 = frames w.
Proof.
  unfold emit_tabel, to_csv, print, bind, get_frame.
  destruct (frames w !! tabel) as [df|] eqn:Hdf; cbn; [|done].
  by rewrite Hdf.
Qed.

(** C4: whenever the table is assembled it has exactly the two rows
    "Original Model" and "Created Diel Model", in that order, and the one
    column "Quantum Yield" holding two values; writing it to the file
    and printing it, the only statements that follow, leave it (and every
    other table object) unchanged. *)
Theorem tabel_has_two_labelled_rows nd d w tabel w' :
  assemble nd d w = (Ok tabel, w') →
  (∃ qy_non_diel qy_diel,
      frames w' !! tabel =
        Some (mkDataFrame [LStr "Original Model"; LStr "Created Diel Model"]
                [("Quantum Yield", [qy_non_diel; qy_diel])]))
  ∧ frames (emit_tabel tabel w').2 = frames w'.
Proof.
  intros (a & b & c & e & _ & _ & _ & _ & -> & ->)%assemble_Ok_inv.
  split; [|apply emit_tabel_frames].
  exists (ratio a b), (ratio c e). cbn. by rewrite lookup_insert_eq.
Qed.

End output.

(** The table of C4 for the example mappings. *)
Lemma tabel_has_two_labelled_rows_witness :
  (∃ qy_non_diel qy_diel,
      frames (assemble Toy.fluxes_nd Toy.fluxes_d Toy.world).2 !! 1%positive =
        Some (mkDataFrame [LStr "Original Model"; LStr "Created Diel Model"]
                [("Quantum Yield", [qy_non_diel; qy_diel])]))
  ∧ frames (@emit_tabel Toy.rendering 1%positive
              (assemble Toy.fluxes_nd Toy.fluxes_d Toy.world).2).2
    = frames (assemble Toy.fluxes_nd Toy.fluxes_d Toy.world).2.
Proof.
  apply (@tabel_has_two_labelled_rows Toy.rendering Toy.fluxes_nd Toy.fluxes_d Toy.world).
  vm_compute. reflexivity.
Defined.

(** ** What a computation leaves alone *)

Section preserves.
Context (R : relation World) `{!PreOrder R}.

Lemma preserves_ret {A} (a : A) : preserves R (ret a).
Proof. intros w. cbn. reflexivity. Qed.

Lemma preserves_raise {A} e : preserves R (raise (A:=A) e).
Proof. intros w. cbn. reflexivity. Qed.

Lemma preserves_bind {A B} (c : M A) (k : A → M B) :
  preserves R c → (∀ a, preserves R (k a)) → preserves R (bind c k).
Proof.
  intros Hc Hk w. unfold bind. specialize (Hc w).
  destruct (c w) as [[a|e] w1]; cbn in *; [|done].
  etrans; [done|]. apply Hk.
Qed.

Lemma preserves_get_model model : preserves R (get_model model).
Proof.
  intros w. unfold get_model. destruct (models w !! model); cbn; reflexivity.
Qed.

Lemma preserves_get_frame t : preserves R (get_frame t).
Proof.
  intros w. unfold get_frame. destruct (frames w !! t); cbn; reflexivity.
Qed.

Lemma preserves_getitem series key : preserves R (getitem series key).
Proof.
  unfold getitem. destruct (series !! key);
    [apply preserves_ret | apply preserves_raise].
Qed.
End preserves.

#[global] Instance same_outputs_preorder : PreOrder same_outputs.
Proof.
  split.
  - by intros w.
  - intros w1 w2 w3 (?&?&?) (?&?&?). unfold same_outputs. split_and!; congruence.
Qed.

(** One step of a proof that a sequence of statements preserves a
    relation: split a sequence, case on what a match inspects, or close a
    statement with a known lemma. *)
Create HintDb outputs discriminated.
#[global] Hint Resolve preserves_ret preserves_raise preserves_get_model
  preserves_get_frame preserves_getitem : outputs.

Ltac preserve_step :=
  first
    [ solve [eauto with outputs typeclass_instances]
    | apply preserves_bind; [try apply _ | |intros ?]
    | progress cbv zeta
    | match goal with
      | |- preserves _ (match ?x with _ => _ end) => destruct x eqn:?
      | |- preserves _ (if ?b then _ else _) => destruct b eqn:?
      end ].
Ltac preserve := repeat preserve_step.

Lemma put_model_outputs model m : preserves same_outputs (put_model model m).
Proof. by intros w. Qed.

Lemma read_sbml_model_outputs `{SbmlParser} path :
  preserves same_outputs (read_sbml_model path).
Proof.
  intros w. unfold read_sbml_model.
  destruct (disk w !! path); [|done]. by destruct (parse_sbml _).
Qed.

Lemma pfba_outputs `{LpSolver} model : preserves same_outputs (pfba model).
Proof. intros w. unfold pfba. cbn. by destruct (models w !! model). Qed.

#[global] Hint Resolve put_model_outputs read_sbml_model_outputs pfba_outputs : outputs.

Lemma set_objective_outputs model value :
  preserves same_outputs (set_objective model value).
Proof. unfold set_objective. preserve. Qed.

Lemma set_objective_direction_outputs model value :
  preserves same_outputs (set_objective_direction model value).
Proof. unfold set_objective_direction. preserve. Qed.

Lemma set_bounds_outputs model id value :
  preserves same_outputs (set_bounds model id value).
Proof. unfold set_bounds. preserve. Qed.

#[global] Hint Resolve set_objective_outputs set_objective_direction_outputs
  set_bounds_outputs : outputs.

(** Loading, configuring and solving write no file, print nothing and touch
    no table. *)
Lemma solve_models_outputs `{SbmlParser, LpSolver} :
  preserves same_outputs solve_models.
Proof.
  unfold solve_models, prepare_models, load_models, configure_original_model,
    configure_diel_tomato_model, QY.
  preserve.
Qed.

(** ** The outputs of a run *)

Section whole_run.
Context `{SbmlParser, LpSolver, Rendering}.

(** The text of the file: the header row, then one row per model, a label
    and one rendered value. *)
Lemma csv_text_tabel_of v1 v2 :
  csv_text "," (tabel_of v1 v2) =
    (",Quantum Yield" +:+ nl)
    +:+ (("Original Model," +:+ csv_field "," (format_float v1)) +:+ nl)
    +:+ (("Created Diel Model," +:+ csv_field "," (format_float v2)) +:+ nl).
Proof. reflexivity. Qed.

Lemma report_Ok nd d a b c e w :
  nd !! "RBPCh" = Some a → nd !! "EX_photon_h" = Some b →
  d !! "RBPCh_Day" = Some c → d !! "EX_photon_h_Day" = Some e →
  report nd d w =
    (Ok (),
     set_stdout
       (λ out, out ++ [frame_to_string (tabel_of (ratio a b) (ratio c e)) +:+ nl])
       (set_disk
          <["QY_Tomato22.csv" := csv_text "," (tabel_of (ratio a b) (ratio c e))]>
          (set_frames
             <[fresh (dom (frames w)) := tabel_of (ratio a b) (ratio c e)]> w))).
Proof.
  intros Ha Hb Hc He. unfold report.
  erewrite bind_Ok; last by apply assemble_Ok.
  apply emit_tabel_Some. cbn. apply lookup_insert_eq.
Qed.

Lemma report_Ok_inv nd d w w' :
  report nd d w = (Ok (), w') →
  ∃ a b c e,
    nd !! "RBPCh" = Some a ∧ nd !! "EX_photon_h" = Some b ∧
    d !! "RBPCh_Day" = Some c ∧ d !! "EX_photon_h_Day" = Some e.
Proof.
  unfold report. intros (tabel & w1 & Hasm & _)%bind_Ok_inv.
  apply assemble_Ok_inv in Hasm as (a & b & c & e & ? & ? & ? & ? & _).
  by exists a, b, c, e.
Qed.

Lemma report_Raise nd d key w :
  first_missing nd d = Some key → report nd d w = (Raise (KeyError key), w).
Proof.
  intros. unfold report. erewrite bind_Raise; [done|]. by apply assemble_Raise.
Qed.

Lemma main_Ok_inv w w' :
  main w = (Ok (), w') →
  ∃ nd d w1, solve_models w = (Ok (nd, d), w1) ∧ report nd d w1 = (Ok (), w').
Proof.
  unfold main. intros ([nd d] & w1 & Hsolve & Hreport)%bind_Ok_inv. eauto.
Qed.

(** C5: on a successful run the file QY_Tomato22.csv of the working
    directory holds the comma-delimited text of the table: the header row
    ",Quantum Yield", then the row "Original Model" and the row "Created
    Diel Model", each with the rendering of one float value; no other
    file changes; and the one thing printed is that same table. *)
Theorem main_writes_csv_and_prints w w' :
  main w = (Ok (), w') →
  ∃ qy_non_diel qy_diel,
    let tabel :=
      mkDataFrame [LStr "Original Model"; LStr "Created Diel Model"]
        [("Quantum Yield", [qy_non_diel; qy_diel])] in
    disk w' = <["QY_Tomato22.csv" := csv_text "," tabel]> (disk w)
    ∧ csv_text "," tabel =
        (",Quantum Yield" +:+ nl)
        +:+ (("Original Model," +:+ csv_field "," (format_float qy_non_diel)) +:+ nl)
        +:+ (("Created Diel Model," +:+ csv_field "," (format_float qy_diel)) +:+ nl)
    ∧ stdout w' = stdout w ++ [frame_to_string tabel +:+ nl].
Proof.
  intros (nd & d & w1 & Hsolve & Hreport)%main_Ok_inv.
  destruct (report_Ok_inv _ _ _ _ Hreport) as (a & b & c & e & Ha & Hb & Hc & He).
  rewrite (report_Ok _ _ _ _ _ _ _ Ha Hb Hc He) in Hreport.
  injection Hreport as <-.
  pose proof (solve_models_outputs w) as (Hdisk & Hout & _).
  rewrite Hsolve in Hdisk, Hout. cbn in Hdisk, Hout.
  exists (ratio a b), (ratio c e). cbn zeta.
  split_and!; [by cbn; rewrite Hdisk | apply csv_text_tabel_of | by cbn; rewrite Hout].
Qed.

(** C6: when the solves have produced two flux mappings and one of the
    four keys is absent from its mapping, the ratio computation raises
    KeyError for an absent key instead of yielding a value, the run ends
    with that exception in the world the solves left, and since its start
    no file has been written and nothing printed. *)
Theorem missing_key_ends_run_without_csv w nd d w1 :
  solve_models w = (Ok (nd, d), w1) →
  nd !! "RBPCh" = None ∨ nd !! "EX_photon_h" = None ∨
  d !! "RBPCh_Day" = None ∨ d !! "EX_photon_h_Day" = None →
  ∃ key,
    key ∈ ["RBPCh"; "EX_photon_h"; "RBPCh_Day"; "EX_photon_h_Day"]
    ∧ data_quantum_assimilation nd d w1 = (Raise (KeyError key), w1)
    ∧ main w = (Raise (KeyError key), w1)
    ∧ disk w1 = disk w
    ∧ stdout w1 = stdout w.
Proof.
  intros Hsolve (key & Hkey & Hin)%some_key_missing.
  pose proof (solve_models_outputs w) as (Hdisk & Hout & _).
  rewrite Hsolve in Hdisk, Hout.
  exists key. split_and!; [done| |  |done|done].
  - by apply data_quantum_assimilation_Raise.
  - unfold main. erewrite bind_Ok; [|done]. by apply report_Raise.
Qed.

End whole_run.

(** ** Which mapping each value depends on *)

Lemma cell_tabel_of_original v1 v2 :
  cell (tabel_of v1 v2) "Original Model" "Quantum Yield" = Some v1.
Proof. reflexivity. Qed.

Lemma cell_tabel_of_diel v1 v2 :
  cell (tabel_of v1 v2) "Created Diel Model" "Quantum Yield" = Some v2.
Proof. reflexivity. Qed.

(** C10: take two runs of the table assembly that both produce a table,
    from any worlds and any flux mappings.  If the two non-diel mappings
    agree at RBPCh and at EX_photon_h, the "Original Model" values of the
    two tables are the same value, whatever the diel mappings are; if the
    two diel mappings agree at RBPCh_Day and at EX_photon_h_Day, the
    "Created Diel Model" values are the same, whatever the non-diel
    mappings are. *)
Theorem each_value_depends_on_its_own_mapping
    (nd1 d1 nd2 d2 : gmap string float) w1 w2 t1 t2 w1' w2' df1 df2 :
  assemble nd1 d1 w1 = (Ok t1, w1') → frames w1' !! t1 = Some df1 →
  assemble nd2 d2 w2 = (Ok t2, w2') → frames w2' !! t2 = Some df2 →
  (nd1 !! "RBPCh" = nd2 !! "RBPCh" →
   nd1 !! "EX_photon_h" = nd2 !! "EX_photon_h" →
   ∃ v, cell df1 "Original Model" "Quantum Yield" = Some v
        ∧ cell df2 "Original Model" "Quantum Yield" = Some v)
  ∧ (d1 !! "RBPCh_Day" = d2 !! "RBPCh_Day" →
     d1 !! "EX_photon_h_Day" = d2 !! "EX_photon_h_Day" →
     ∃ v, cell df1 "Created Diel Model" "Quantum Yield" = Some v
          ∧ cell df2 "Created Diel Model" "Quantum Yield" = Some v).
Proof.
  intros (a1 & b1 & c1 & e1 & Ha1 & Hb1 & Hc1 & He1 & -> & ->)%assemble_Ok_inv Hdf1.
  intros (a2 & b2 & c2 & e2 & Ha2 & Hb2 & Hc2 & He2 & -> & ->)%assemble_Ok_inv Hdf2.
  cbn in Hdf1, Hdf2. rewrite lookup_insert_eq in Hdf1, Hdf2.
  injection Hdf1 as <-. injection Hdf2 as <-.
  split.
  - intros Ha Hb. exists (ratio a1 b1).
    rewrite Ha1, Ha2 in Ha. rewrite Hb1, Hb2 in Hb.
    injection Ha as ->. injection Hb as ->.
    by rewrite !cell_tabel_of_original.
  - intros Hc He. exists (ratio c1 e1).
    rewrite Hc1, Hc2 in Hc. rewrite He1, He2 in He.
    injection Hc as ->. injection He as ->.
    by rewrite !cell_tabel_of_diel.
Qed.

(** ** The configuration step *)

Lemma set_models_twice f g w :
  set_models f (set_models g w) = set_models (f ∘ g) w.
Proof. reflexivity. Qed.

Lemma set_objective_Ok model value m w :
  models w !! model = Some m →
  is_Some (reactions m !! value) →
  set_objective model value w =
    (Ok (),
     set_models
       <[model := mkModel (reactions m) (metabolites m) {[ value := 1%float ]}
                    (objective_direction m)]> w).
Proof.
  intros Hm [r Hr]. unfold set_objective.
  erewrite bind_Ok; last by apply get_model_Some. by rewrite Hr.
Qed.

Lemma set_objective_direction_max model m w :
  models w !! model = Some m →
  set_objective_direction model "max" w =
    (Ok (), set_models <[model := mkModel (reactions m) (metabolites m) (objective m) Max]> w).
Proof.
  intros Hm. unfold set_objective_direction.
  by erewrite bind_Ok; last by apply get_model_Some.
Qed.

Lemma set_bounds_Ok model id lb ub m r w :
  models w !! model = Some m →
  reactions m !! id = Some r →
  PrimFloat.ltb ub lb = false →
  set_bounds model id (lb, ub) w =
    (Ok (),
     set_models
       <[model := mkModel (<[id := mkReaction lb ub (stoichiometry r)]> (reactions m))
                    (metabolites m) (objective m) (objective_direction m)]> w).
Proof.
  intros Hm Hr Hle. unfold set_bounds.
  erewrite bind_Ok; last by apply get_model_Some. by rewrite Hr, Hle.
Qed.

(** The three statements in a row, on a model that has both reactions. *)
Lemma configure_Ok model objective_id fixed_id m r w :
  models w !! model = Some m →
  is_Some (reactions m !! objective_id) →
  reactions m !! fixed_id = Some r →
  configure model objective_id fixed_id w =
    (Ok (),
     set_models
       <[model := mkModel
                    (<[fixed_id := mkReaction 0.11 0.11 (stoichiometry r)]> (reactions m))
                    (metabolites m) {[ objective_id := 1%float ]} Max]> w).
Proof.
  intros Hm Hobj Hr. unfold configure.
  erewrite bind_Ok; last by apply set_objective_Ok.
  erewrite bind_Ok; last by apply set_objective_direction_max, lookup_insert_eq.
  erewrite set_bounds_Ok; [|by apply lookup_insert_eq|done|done].
  rewrite !set_models_twice. unfold set_models. cbn.
  by rewrite !insert_insert_eq.
Qed.

(** The three statements succeed only on a model that has both reactions. *)
Lemma configure_Ok_inv model objective_id fixed_id w w' :
  configure model objective_id fixed_id w = (Ok (), w') →
  ∃ m r, models w !! model = Some m
         ∧ is_Some (reactions m !! objective_id)
         ∧ reactions m !! fixed_id = Some r.
Proof.
  unfold configure. intros ([] & w1 & H1 & H2)%bind_Ok_inv.
  unfold set_objective in H1.
  apply bind_Ok_inv in H1 as (m & w0 & Hget & H1).
  unfold get_model in Hget.
  destruct (models w !! model) as [m0|] eqn:Hm; [|discriminate].
  injection Hget as -> ->.
  destruct (reactions m !! objective_id) as [r0|] eqn:Hobj; [|discriminate].
  injection H1 as <-.
  apply bind_Ok_inv in H2 as ([] & w2 & H2 & H3).
  erewrite set_objective_direction_max in H2; last by apply lookup_insert_eq.
  injection H2 as <-.
  unfold set_bounds in H3.
  erewrite bind_Ok in H3; last by apply get_model_Some, lookup_insert_eq.
  cbn in H3.
  destruct (reactions m !! fixed_id) as [r|] eqn:Hr; [|discriminate].
  by exists m, r.
Qed.

Lemma configured_as_intro objective_id fixed_id rs ms r :
  configured_as objective_id fixed_id
    (mkModel (<[fixed_id := mkReaction 0.11 0.11 (stoichiometry r)]> rs) ms
       {[ objective_id := 1%float ]} Max).
Proof.
  split_and!; [done..|]. eexists. split; [cbn; apply lookup_insert_eq|done].
Qed.

Lemma read_sbml_model_Ok_inv `{SbmlParser} path model w w' :
  read_sbml_model path w = (Ok model, w') →
  ∃ m, model = fresh (dom (models w)) ∧ w' = set_models <[model := m]> w.
Proof.
  unfold read_sbml_model.
  destruct (disk w !! path) as [document|]; [|discriminate].
  destruct (parse_sbml document) as [m|e]; [|discriminate].
  intros [= <- <-]. by exists m.
Qed.

(** The two loaded models are two distinct new objects. *)
Lemma load_models_Ok_inv `{SbmlParser} original_model diel_tomato_model w w' :
  load_models w = (Ok (original_model, diel_tomato_model), w') →
  ∃ m_nd m_d,
    original_model ≠ diel_tomato_model
    ∧ w' = set_models (<[diel_tomato_model := m_d]> ∘ <[original_model := m_nd]>) w.
Proof.
  unfold load_models.
  intros (a & w1 & (m_nd & -> & ->)%read_sbml_model_Ok_inv & H1)%bind_Ok_inv.
  apply bind_Ok_inv in H1 as (b & w2 & (m_d & -> & ->)%read_sbml_model_Ok_inv & H1).
  injection H1 as <- <- <-. exists m_nd, m_d. split; [|done].
  cbn. intros Heq.
  apply (is_fresh (dom (<[fresh (dom (models w)) := m_nd]> (models w)))).
  rewrite <- Heq. rewrite dom_insert_L. set_solver.
Qed.

Section configuration.
Context `{SbmlParser}.

(** C2: on a model that has the reactions it names, the configuration of
    the non-diel model succeeds and leaves it with objective EX_photon_h
    (alone, coefficient 1), direction maximize and both bounds of
    BIOMASS_STEM equal to 0.11; the configuration of the diel model does
    the same with EX_photon_h_Day and Biomass_Total.  And in the script,
    once both models are loaded and configured, both are in that state
    and no solve has been started. *)
Theorem configuration_sets_objective_and_bounds :
  (∀ original_model w m,
      models w !! original_model = Some m →
      is_Some (reactions m !! "EX_photon_h") →
      is_Some (reactions m !! "BIOMASS_STEM") →
      ∃ m', configure_original_model original_model w =
              (Ok (), set_models <[original_model := m']> w)
            ∧ objective m' = {[ "EX_photon_h" := 1%float ]}
            ∧ objective_direction m' = Max
            ∧ ∃ r, reactions m' !! "BIOMASS_STEM" = Some r
                   ∧ lower_bound r = 0.11%float ∧ upper_bound r = 0.11%float)
  ∧ (∀ diel_tomato_model w m,
      models w !! diel_tomato_model = Some m →
      is_Some (reactions m !! "EX_photon_h_Day") →
      is_Some (reactions m !! "Biomass_Total") →
      ∃ m', configure_diel_tomato_model diel_tomato_model w =
              (Ok (), set_models <[diel_tomato_model := m']> w)
            ∧ objective m' = {[ "EX_photon_h_Day" := 1%float ]}
            ∧ objective_direction m' = Max
            ∧ ∃ r, reactions m' !! "Biomass_Total" = Some r
                   ∧ lower_bound r = 0.11%float ∧ upper_bound r = 0.11%float)
  ∧ (∀ w original_model diel_tomato_model w',
      prepare_models w = (Ok (original_model, diel_tomato_model), w') →
      solves w' = solves w
      ∧ ∃ m_nd m_d,
          models w' !! original_model = Some m_nd
          ∧ models w' !! diel_tomato_model = Some m_d
          ∧ configured_as "EX_photon_h" "BIOMASS_STEM" m_nd
          ∧ configured_as "EX_photon_h_Day" "Biomass_Total" m_d).
Proof.
  split_and!.
  - intros l w m Hm Hobj [r Hr]. eexists. split.
    + change (configure_original_model l) with (configure l "EX_photon_h" "BIOMASS_STEM").
      by apply configure_Ok.
    + apply configured_as_intro.
  - intros l w m Hm Hobj [r Hr]. eexists. split.
    + change (configure_diel_tomato_model l)
        with (configure l "EX_photon_h_Day" "Biomass_Total").
      by apply configure_Ok.
    + apply configured_as_intro.
  - intros w a b w'. unfold prepare_models.
    intros ([a' b'] & w1 & Hload & H1)%bind_Ok_inv.
    apply bind_Ok_inv in H1 as ([] & w2 & Hnd & H1).
    apply bind_Ok_inv in H1 as ([] & w3 & Hd & H1).
    injection H1 as -> -> <-.
    apply load_models_Ok_inv in Hload as (m0_nd & m0_d & Hne & ->).
    change (configure_original_model a) with (configure a "EX_photon_h" "BIOMASS_STEM") in Hnd.
    change (configure_diel_tomato_model b)
      with (configure b "EX_photon_h_Day" "Biomass_Total") in Hd.
    destruct (configure_Ok_inv _ _ _ _ _ Hnd) as (m_nd & r_nd & Hm_nd & Hobj_nd & Hr_nd).
    rewrite (configure_Ok _ _ _ _ _ _ Hm_nd Hobj_nd Hr_nd) in Hnd.
    injection Hnd as <-.
    destruct (configure_Ok_inv _ _ _ _ _ Hd) as (m_d & r_d & Hm_d & Hobj_d & Hr_d).
    rewrite (configure_Ok _ _ _ _ _ _ Hm_d Hobj_d Hr_d) in Hd.
    injection Hd as <-.
    split; [done|]. cbn.
    eexists _, _. split_and!.
    + rewrite lookup_insert_ne by done. apply lookup_insert_eq.
    + apply lookup_insert_eq.
    + apply configured_as_intro.
    + apply configured_as_intro.
Qed.

End configuration.

(** ** The frame of the configuration step *)

#[global] Instance model_frame_preorder id : PreOrder (model_frame id).
Proof.
  split.
  - by intros m.
  - intros m1 m2 m3 (Hmet & Hdom & Hother & Hst) (Hmet' & Hdom' & Hother' & Hst').
    unfold model_frame. split_and!; [congruence..| |congruence].
    intros other Hne. by rewrite Hother', Hother.
Qed.

#[global] Instance config_frame_preorder model id : PreOrder (config_frame model id).
Proof.
  split.
  - intros w. unfold config_frame. split_and!; [done..|].
    destruct (models w !! model); by constructor.
  - intros w1 w2 w3 (?&?&?&?&?&Hother&Hm) (?&?&?&?&?&Hother'&Hm').
    unfold config_frame. split_and!; [congruence..| |].
    + intros other Hne. by rewrite Hother', Hother.
    + destruct Hm as [m1 m2 H12|]; inversion Hm' as [m2' m3 H23|]; constructor.
      by etrans.
Qed.

(** Replacing the model object by a state that [model_frame] allows. *)
Lemma config_frame_put model id m m' w :
  models w !! model = Some m →
  model_frame id m m' →
  config_frame model id w (set_models <[model := m']> w).
Proof.
  intros Hm Hframe. unfold config_frame. cbn. split_and!; [done..| | |].
  - by apply dom_insert_lookup_L.
  - intros other Hne. by rewrite lookup_insert_ne.
  - rewrite Hm, lookup_insert_eq. by constructor.
Qed.

Lemma set_objective_frame model id value :
  preserves (config_frame model id) (set_objective model value).
Proof.
  intros w. unfold set_objective, bind, get_model.
  destruct (models w !! model) as [m|] eqn:Hm; [|reflexivity].
  destruct (reactions m !! value); [|reflexivity].
  by eapply config_frame_put.
Qed.

Lemma set_objective_direction_frame model id value :
  preserves (config_frame model id) (set_objective_direction model value).
Proof.
  intros w. unfold set_objective_direction, bind, get_model.
  destruct (models w !! model) as [m|] eqn:Hm; [|reflexivity].
  cbv zeta. repeat case_match; first [by eapply config_frame_put | reflexivity].
Qed.

Lemma set_bounds_frame model id value :
  preserves (config_frame model id) (set_bounds model id value).
Proof.
  intros w. unfold set_bounds, bind, get_model.
  destruct (models w !! model) as [m|] eqn:Hm; [|reflexivity].
  destruct (reactions m !! id) as [r|] eqn:Hr; [|reflexivity].
  destruct value as [lb ub]. destruct (PrimFloat.ltb ub lb); [reflexivity|].
  eapply config_frame_put; [done|].
  unfold model_frame. cbn. split_and!; [done| | |].
  - by apply dom_insert_lookup_L.
  - intros other Hne. by rewrite lookup_insert_ne.
  - by rewrite lookup_insert_eq, Hr.
Qed.

Lemma configure_frame model objective_id fixed_id :
  preserves (config_frame model fixed_id) (configure model objective_id fixed_id).
Proof.
  unfold configure.
  apply preserves_bind; [apply _|apply set_objective_frame|intros _].
  apply preserves_bind; [apply _|apply set_objective_direction_frame|intros _].
  apply set_bounds_frame.
Qed.

(** C8: each configuration block is a statement without a value (its type
    is [M unit]: ending normally it yields the unit and nothing else) and,
    however it ends, changes in place nothing but the
    objective, the direction and the one bound pair of the model it
    configures: that model keeps its metabolites, its reaction ids, every
    other reaction as it is and the stoichiometry of the bounded reaction;
    every other model object, the tables, the files, the standard output
    and the solver calls are as before. *)
Theorem configuration_changes_only_what_it_sets model w :
  let after_nd := (configure_original_model model w).2 in
  let after_d := (configure_diel_tomato_model model w).2 in
  (frames after_nd = frames w ∧ disk after_nd = disk w
   ∧ stdout after_nd = stdout w ∧ solves after_nd = solves w
   ∧ dom (models after_nd) = dom (models w)
   ∧ (∀ other, other ≠ model → models after_nd !! other = models w !! other)
   ∧ option_Forall2
       (λ m m',
          metabolites m' = metabolites m
          ∧ dom (reactions m') = dom (reactions m)
          ∧ (∀ other, other ≠ "BIOMASS_STEM" →
                      reactions m' !! other = reactions m !! other)
          ∧ stoichiometry <$> reactions m' !! "BIOMASS_STEM"
            = stoichiometry <$> reactions m !! "BIOMASS_STEM")
       (models w !! model) (models after_nd !! model))
  ∧ (frames after_d = frames w ∧ disk after_d = disk w
     ∧ stdout after_d = stdout w ∧ solves after_d = solves w
     ∧ dom (models after_d) = dom (models w)
     ∧ (∀ other, other ≠ model → models after_d !! other = models w !! other)
     ∧ option_Forall2
         (λ m m',
            metabolites m' = metabolites m
            ∧ dom (reactions m') = dom (reactions m)
            ∧ (∀ other, other ≠ "Biomass_Total" →
                        reactions m' !! other = reactions m !! other)
            ∧ stoichiometry <$> reactions m' !! "Biomass_Total"
              = stoichiometry <$> reactions m !! "Biomass_Total")
         (models w !! model) (models after_d !! model))
  ∧ (∀ v, (configure_original_model model w).1 = Ok v → v = ())
  ∧ (∀ v, (configure_diel_tomato_model model w).1 = Ok v → v = ()).
Proof.
  split; [|split; [|split]].
  - apply (configure_frame model "EX_photon_h" "BIOMASS_STEM" w).
  - apply (configure_frame model "EX_photon_h_Day" "Biomass_Total" w).
  - by intros [].
  - by intros [].
Qed.

(** ** The statements at the toy instance *)

(** C3 at the two configured toy models. *)
Lemma QY_returns_both_fluxes_witness :
  @QY Toy.solver 1%positive 2%positive Toy.configured =
    (Ok (Toy.fluxes_nd, Toy.fluxes_d),
     set_solves (λ calls, calls ++ [1%positive; 2%positive]) Toy.configured).
Proof.
  apply (@QY_returns_both_fluxes Toy.solver 1%positive 2%positive Toy.configured
           Toy.tomato_configured Toy.diel_tomato_configured
           (mkSolution (-20) "optimal" Toy.fluxes_nd)
           (mkSolution (-10) "optimal" Toy.fluxes_d));
    reflexivity.
Defined.

(** C9 with a solver that fails: the diel model is never handed over. *)
Lemma QY_stops_at_first_failure_witness :
  @QY Toy.failing_solver 1%positive 2%positive Toy.configured =
    (Raise (OptimizationError "infeasible"),
     set_solves (λ calls, calls ++ [1%positive]) Toy.configured).
Proof.
  apply (proj2 (@QY_stops_at_first_failure Toy.failing_solver
                  1%positive 2%positive Toy.configured) Toy.tomato_configured);
    reflexivity.
Defined.

(** C2 at the toy models: each block on its object, and the two blocks
    inside the script. *)
Lemma configuration_sets_objective_and_bounds_witness :
  (∃ m', configure_original_model 1%positive Toy.loaded =
           (Ok (), set_models <[1%positive := m']> Toy.loaded)
         ∧ objective m' = {[ "EX_photon_h" := 1%float ]}
         ∧ objective_direction m' = Max
         ∧ ∃ r, reactions m' !! "BIOMASS_STEM" = Some r
                ∧ lower_bound r = 0.11%float ∧ upper_bound r = 0.11%float)
  ∧ (∃ m', configure_diel_tomato_model 2%positive Toy.loaded =
             (Ok (), set_models <[2%positive := m']> Toy.loaded)
           ∧ objective m' = {[ "EX_photon_h_Day" := 1%float ]}
           ∧ objective_direction m' = Max
           ∧ ∃ r, reactions m' !! "Biomass_Total" = Some r
                  ∧ lower_bound r = 0.11%float ∧ upper_bound r = 0.11%float)
  ∧ (solves (@prepare_models Toy.parser Toy.world).2 = solves Toy.world
     ∧ ∃ m_nd m_d,
         models (@prepare_models Toy.parser Toy.world).2 !! 1%positive = Some m_nd
         ∧ models (@prepare_models Toy.parser Toy.world).2 !! 2%positive = Some m_d
         ∧ configured_as "EX_photon_h" "BIOMASS_STEM" m_nd
         ∧ configured_as "EX_photon_h_Day" "Biomass_Total" m_d).
Proof.
  destruct (@configuration_sets_objective_and_bounds Toy.parser) as (Hnd & Hd & Hboth).
  split; [|split].
  - apply (Hnd 1%positive Toy.loaded Toy.tomato);
      [reflexivity | eexists; reflexivity | eexists; reflexivity].
  - apply (Hd 2%positive Toy.loaded Toy.diel_tomato);
      [reflexivity | eexists; reflexivity | eexists; reflexivity].
  - apply (Hboth Toy.world 1%positive 2%positive). vm_compute. reflexivity.
Defined.

(** C5 at the toy instance. *)
Lemma main_writes_csv_and_prints_witness :
  ∃ qy_non_diel qy_diel,
    let tabel :=
      mkDataFrame [LStr "Original Model"; LStr "Created Diel Model"]
        [("Quantum Yield", [qy_non_diel; qy_diel])] in
    disk Toy.finished =
      <["QY_Tomato22.csv" := @csv_text Toy.rendering "," tabel]> (disk Toy.world)
    ∧ @csv_text Toy.rendering "," tabel =
        (",Quantum Yield" +:+ nl)
        +:+ (("Original Model,"
              +:+ csv_field "," (@format_float Toy.rendering qy_non_diel)) +:+ nl)
        +:+ (("Created Diel Model,"
              +:+ csv_field "," (@format_float Toy.rendering qy_diel)) +:+ nl)
    ∧ stdout Toy.finished =
        stdout Toy.world ++ [@frame_to_string Toy.rendering tabel +:+ nl].
Proof.
  apply (@main_writes_csv_and_prints Toy.parser Toy.solver Toy.rendering Toy.world).
  vm_compute. reflexivity.
Defined.

(** C6 with a solver whose solutions hold no flux. *)
Lemma missing_key_ends_run_without_csv_witness :
  ∃ key,
    key ∈ ["RBPCh"; "EX_photon_h"; "RBPCh_Day"; "EX_photon_h_Day"]
    ∧ data_quantum_assimilation ∅ ∅ Toy.solved = (Raise (KeyError key), Toy.solved)
    ∧ @main Toy.parser Toy.empty_solver Toy.rendering Toy.world
      = (Raise (KeyError key), Toy.solved)
    ∧ disk Toy.solved = disk Toy.world
    ∧ stdout Toy.solved = stdout Toy.world.
Proof.
  apply (@missing_key_ends_run_without_csv Toy.parser Toy.empty_solver Toy.rendering
           Toy.world ∅ ∅ Toy.solved).
  - vm_compute. reflexivity.
  - left. reflexivity.
Defined.

(** C10 at two pairs of runs: one pair differs in the diel mapping only,
    the other in the non-diel mapping only. *)
Lemma each_value_depends_on_its_own_mapping_witness :
  (∃ v, cell (tabel_of (ratio 10 (-20)) (ratio 5 (-10)))
          "Original Model" "Quantum Yield" = Some v
        ∧ cell (tabel_of (ratio 10 (-20)) (ratio 7 (-8)))
            "Original Model" "Quantum Yield" = Some v)
  ∧ (∃ v, cell (tabel_of (ratio 10 (-20)) (ratio 5 (-10)))
            "Created Diel Model" "Quantum Yield" = Some v
          ∧ cell (tabel_of (ratio 3 (-4)) (ratio 5 (-10)))
              "Created Diel Model" "Quantum Yield" = Some v).
Proof.
  split.
  - apply (proj1 (each_value_depends_on_its_own_mapping
                    Toy.fluxes_nd Toy.fluxes_d Toy.fluxes_nd Toy.other_fluxes_d
                    Toy.world Toy.world 1%positive 1%positive
                    (assemble Toy.fluxes_nd Toy.fluxes_d Toy.world).2
                    (assemble Toy.fluxes_nd Toy.other_fluxes_d Toy.world).2
                    _ _ eq_refl eq_refl eq_refl eq_refl));
      reflexivity.
  - apply (proj2 (each_value_depends_on_its_own_mapping
                    Toy.fluxes_nd Toy.fluxes_d Toy.other_fluxes_nd Toy.fluxes_d
                    Toy.world Toy.world 1%positive 1%positive
                    (assemble Toy.fluxes_nd Toy.fluxes_d Toy.world).2
                    (assemble Toy.other_fluxes_nd Toy.fluxes_d Toy.world).2
                    _ _ eq_refl eq_refl eq_refl eq_refl));
      reflexivity.
Defined.

(** C8 at the toy models: configuring object 1 leaves object 2 as it is,
    and object 1 keeps all but what the block sets. *)
Lemma configuration_changes_only_what_it_sets_witness :
  config_frame 1%positive "BIOMASS_STEM" Toy.loaded
    (configure_original_model 1%positive Toy.loaded).2
  ∧ models (configure_original_model 1%positive Toy.loaded).2 !! 2%positive
    = Some Toy.diel_tomato
  ∧ models (configure_diel_tomato_model 2%positive Toy.loaded).2 !! 1%positive
    = Some Toy.tomato.
Proof.
  destruct (configuration_changes_only_what_it_sets 1%positive Toy.loaded)
    as (Hnd & _).
  destruct (configuration_changes_only_what_it_sets 2%positive Toy.loaded)
    as (_ & Hd & _).
  split; [exact Hnd|]. split.
  - destruct Hnd as (_ & _ & _ & _ & _ & Hother & _).
    etrans; [apply (Hother 2%positive); discriminate | reflexivity].
  - destruct Hd as (_ & _ & _ & _ & _ & Hother & _).
    etrans; [apply (Hother 1%positive); discriminate | reflexivity].
Defined.

(** ** The script on the toy instance *)

Example os_path_join_tomato :
  os_path_join ".." [".."; ".."; "examples"; "models"; "tomato_Sl2183.xml"]
  = "../../../examples/models/tomato_Sl2183.xml".
Proof. reflexivity. Qed.

Example toy_run_ends_normally :
  (@main Toy.parser Toy.solver Toy.rendering Toy.world).1 = Ok ().
Proof. vm_compute. reflexivity. Qed.

Example toy_run_file :
  disk Toy.finished !! "QY_Tomato22.csv"
  = Some (",Quantum Yield" +:+ nl
          +:+ "Original Model,0.5" +:+ nl
          +:+ "Created Diel Model,0.5" +:+ nl).
Proof. vm_compute. reflexivity. Qed.

Example toy_run_solves : solves Toy.finished = [1%positive; 2%positive].
Proof. vm_compute. reflexivity. Qed.

(** Without the model files nothing is loaded, solved or written. *)
Example run_without_files :
  @main Toy.parser Toy.solver Toy.rendering (mkWorld ∅ ∅ ∅ [] [])
  = (Raise (OSError "../../../examples/models/tomato_Sl2183.xml"),
     mkWorld ∅ ∅ ∅ [] []).
Proof. vm_compute. reflexivity. Qed.

(** A model without the reaction to bound: the block stops at the third
    statement, after the objective and the direction were set. *)
Example configure_without_biomass :
  let m := mkModel {[ "EX_photon_h" := Toy.reaction (-1000) 0 ]} ∅ ∅ Min in
  let w := mkWorld {[ 1%positive := m ]} ∅ ∅ [] [] in
  (configure_original_model 1%positive w).1 = Raise (AttributeError "BIOMASS_STEM")
  ∧ (objective_direction <$> models (configure_original_model 1%positive w).2 !! 1%positive)
    = Some Max.
Proof. vm_compute. split; reflexivity. Qed.

(** * Further properties of the script *)

(** ** The ratio computation, lines 28 to 30 *)

(** X1: the lookups happen in the order RBPCh, EX_photon_h, RBPCh_Day,
    EX_photon_h_Day, so the KeyError names the first key of that order
    that is absent, even when later ones are absent too; the world is
    untouched. *)
Theorem key_error_names_first_absent_key (nd d : gmap string float) w :
  (nd !! "RBPCh" = None →
   data_quantum_assimilation nd d w = (Raise (KeyError "RBPCh"), w))
  ∧ (is_Some (nd !! "RBPCh") → nd !! "EX_photon_h" = None →
     data_quantum_assimilation nd d w = (Raise (KeyError "EX_photon_h"), w))
  ∧ (is_Some (nd !! "RBPCh") → is_Some (nd !! "EX_photon_h") →
     d !! "RBPCh_Day" = None →
     data_quantum_assimilation nd d w = (Raise (KeyError "RBPCh_Day"), w))
  ∧ (is_Some (nd !! "RBPCh") → is_Some (nd !! "EX_photon_h") →
     is_Some (d !! "RBPCh_Day") → d !! "EX_photon_h_Day" = None →
     data_quantum_assimilation nd d w = (Raise (KeyError "EX_photon_h_Day"), w)).
Proof.
  split; [|split; [|split]].
  - intros Ha. apply data_quantum_assimilation_Raise.
    unfold first_missing. by rewrite Ha.
  - intros [a Ha] Hb. apply data_quantum_assimilation_Raise.
    unfold first_missing. by rewrite Ha, Hb.
  - intros [a Ha] [b Hb] Hc. apply data_quantum_assimilation_Raise.
    unfold first_missing. by rewrite Ha, Hb, Hc.
  - intros [a Ha] [b Hb] [c Hc] He. apply data_quantum_assimilation_Raise.
    unfold first_missing. by rewrite Ha, Hb, Hc, He.
Qed.

(** X1 where the non-diel mapping lacks its second key and the diel
    mapping is empty. *)
Lemma key_error_names_first_absent_key_witness :
  data_quantum_assimilation (<["RBPCh" := 10%float]> ∅) ∅ Edge.bare
  = (Raise (KeyError "EX_photon_h"), Edge.bare).
Proof.
  apply (proj1 (proj2 (key_error_names_first_absent_key
                         (<["RBPCh" := 10%float]> ∅) ∅ Edge.bare)));
    [eexists|]; reflexivity.
Defined.

(** X2: the outcome of the ratio computation, value or exception, is the
    same for any two pairs of mappings that agree at the four keys: no
    other flux of a solution has any influence. *)
Theorem ratios_read_four_keys_only (nd nd' d d' : gmap string float) w :
  nd !! "RBPCh" = nd' !! "RBPCh" →
  nd !! "EX_photon_h" = nd' !! "EX_photon_h" →
  d !! "RBPCh_Day" = d' !! "RBPCh_Day" →
  d !! "EX_photon_h_Day" = d' !! "EX_photon_h_Day" →
  data_quantum_assimilation nd d w = data_quantum_assimilation nd' d' w.
Proof.
  intros Ha Hb Hc He.
  unfold data_quantum_assimilation, bind, getitem.
  by rewrite Ha, Hb, Hc, He.
Qed.

(** X2 for the example mappings with and without a further flux. *)
Lemma ratios_read_four_keys_only_witness :
  data_quantum_assimilation (<["ATPase" := 3%float]> Toy.fluxes_nd) Toy.fluxes_d Edge.bare
  = data_quantum_assimilation Toy.fluxes_nd (<["ATPase_Day" := 4%float]> Toy.fluxes_d)
      Edge.bare.
Proof.
  apply (ratios_read_four_keys_only
           (<["ATPase" := 3%float]> Toy.fluxes_nd) Toy.fluxes_nd
           Toy.fluxes_d (<["ATPase_Day" := 4%float]> Toy.fluxes_d) Edge.bare);
    reflexivity.
Defined.

(** ** [QY], lines 8 to 12 *)

Section more_solving.
Context `{LpSolver}.

(** X3: when the non-diel solve returns and the diel solve raises, [QY]
    ends with the diel exception after both models were handed to pfba;
    the non-diel solution is dropped, no pair is returned. *)
Theorem QY_second_failure_drops_first_solution
    non_diel_model diel_model w m_nd m_d sol_nd e :
  models w !! non_diel_model = Some m_nd →
  models w !! diel_model = Some m_d →
  solve_pfba m_nd = Ok sol_nd →
  solve_pfba m_d = Raise e →
  QY non_diel_model diel_model w =
    (Raise e, set_solves (λ calls, calls ++ [non_diel_model; diel_model]) w).
Proof.
  intros Hnd Hd Snd Sd. unfold QY.
  erewrite bind_Ok; last by rewrite (pfba_Some _ _ _ Hnd), Snd.
  erewrite bind_Raise; last by rewrite (pfba_Some _ m_d), Sd.
  unfold set_solves. cbn. by rewrite <- app_assoc.
Qed.

(** X4: however [QY] ends, it has changed no model object, created or
    changed no table, written no file and printed nothing. *)
Theorem QY_only_solves non_diel_model diel_model w :
  models (QY non_diel_model diel_model w).2 = models w
  ∧ frames (QY non_diel_model diel_model w).2 = frames w
  ∧ disk (QY non_diel_model diel_model w).2 = disk w
  ∧ stdout (QY non_diel_model diel_model w).2 = stdout w.
Proof.
  unfold QY, bind.
  pose proof (pfba_models non_diel_model w) as Hm1.
  pose proof (pfba_outputs non_diel_model w) as (Hd1 & Ho1 & Hf1).
  destruct (pfba non_diel_model w) as [[sol_nd|e] w1]; cbn in *; [|done].
  pose proof (pfba_models diel_model w1) as Hm2.
  pose proof (pfba_outputs diel_model w1) as (Hd2 & Ho2 & Hf2).
  destruct (pfba diel_model w1) as [[sol_d|e] w2]; cbn in *;
    split_and!; congruence.
Qed.

End more_solving.

(** X3 with a solver that fails on the diel problem only. *)
Lemma QY_second_failure_drops_first_solution_witness :
  @QY Edge.diel_failing_solver 1%positive 2%positive Toy.configured =
    (Raise (OptimizationError "infeasible"),
     set_solves (λ calls, calls ++ [1%positive; 2%positive]) Toy.configured).
Proof.
  apply (@QY_second_failure_drops_first_solution Edge.diel_failing_solver
           1%positive 2%positive Toy.configured
           Toy.tomato_configured Toy.diel_tomato_configured
           (mkSolution (-20) "optimal" Toy.fluxes_nd));
    reflexivity.
Defined.

(** ** The configuration blocks, lines 19 to 24 *)

Lemma configured_insert objective_id fixed_id m r :
  reactions m !! fixed_id = Some r →
  configured objective_id fixed_id m =
    mkModel (<[fixed_id := mkReaction 0.11 0.11 (stoichiometry r)]> (reactions m))
      (metabolites m) {[ objective_id := 1%float ]} Max.
Proof.
  intros Hr. unfold configured. f_equal.
  apply map_eq. intros id. rewrite lookup_alter, lookup_insert.
  case_decide; [subst; by rewrite Hr | done].
Qed.

Lemma configure_configured model objective_id fixed_id m w :
  models w !! model = Some m →
  is_Some (reactions m !! objective_id) →
  is_Some (reactions m !! fixed_id) →
  configure model objective_id fixed_id w =
    (Ok (), set_models <[model := configured objective_id fixed_id m]> w).
Proof.
  intros Hm Hobj [r Hr]. rewrite (configured_insert _ _ _ _ Hr).
  by apply configure_Ok.
Qed.

Lemma configure_invalid_objective model objective_id fixed_id m w :
  models w !! model = Some m →
  reactions m !! objective_id = None →
  configure model objective_id fixed_id w = (Raise (ValueError "invalid objective"), w).
Proof.
  intros Hm Hobj. unfold configure, set_objective.
  erewrite bind_Raise; [done|].
  erewrite bind_Ok; last by apply get_model_Some. by rewrite Hobj.
Qed.

Lemma configure_missing_fixed model objective_id fixed_id m w :
  models w !! model = Some m →
  is_Some (reactions m !! objective_id) →
  reactions m !! fixed_id = None →
  configure model objective_id fixed_id w =
    (Raise (AttributeError fixed_id),
     set_models <[model := objective_set objective_id m]> w).
Proof.
  intros Hm Hobj Hr. unfold configure.
  erewrite bind_Ok; last by apply set_objective_Ok.
  erewrite bind_Ok; last by apply set_objective_direction_max, lookup_insert_eq.
  unfold set_bounds.
  erewrite bind_Ok; last by apply get_model_Some, lookup_insert_eq.
  cbn. rewrite Hr. unfold raise, set_models, objective_set. cbn.
  by rewrite !insert_insert_eq.
Qed.

(** X5: a model without the objective reaction makes the block stop at
    its first statement with ValueError, and the model, like all the
    world, is exactly as before: EX_photon_h for the non-diel block,
    EX_photon_h_Day for the diel block. *)
Theorem configuration_rejects_unknown_objective model m w :
  models w !! model = Some m →
  (reactions m !! "EX_photon_h" = None →
   configure_original_model model w = (Raise (ValueError "invalid objective"), w))
  ∧ (reactions m !! "EX_photon_h_Day" = None →
     configure_diel_tomato_model model w = (Raise (ValueError "invalid objective"), w)).
Proof.
  intros Hm. split; intros Hobj.
  - by apply (configure_invalid_objective model "EX_photon_h" "BIOMASS_STEM" m).
  - by apply (configure_invalid_objective model "EX_photon_h_Day" "Biomass_Total" m).
Qed.

Lemma configuration_rejects_unknown_objective_witness :
  configure_original_model 1%positive (Edge.world_of Edge.no_objective)
  = (Raise (ValueError "invalid objective"), Edge.world_of Edge.no_objective)
  ∧ configure_diel_tomato_model 1%positive (Edge.world_of Edge.no_objective_day)
    = (Raise (ValueError "invalid objective"), Edge.world_of Edge.no_objective_day).
Proof.
  split.
  - apply (proj1 (configuration_rejects_unknown_objective 1%positive Edge.no_objective
                    (Edge.world_of Edge.no_objective) eq_refl)).
    reflexivity.
  - apply (proj2 (configuration_rejects_unknown_objective 1%positive Edge.no_objective_day
                    (Edge.world_of Edge.no_objective_day) eq_refl)).
    reflexivity.
Defined.

(** X6: the block is not atomic.  On a model that has the objective
    reaction but not the reaction to bound, it ends with AttributeError
    naming that reaction after the first two statements took effect: the
    model is left with the new objective and direction Max, its reactions
    and metabolites as they were. *)
Theorem configuration_stops_half_done model m w :
  models w !! model = Some m →
  (is_Some (reactions m !! "EX_photon_h") →
   reactions m !! "BIOMASS_STEM" = None →
   configure_original_model model w =
     (Raise (AttributeError "BIOMASS_STEM"),
      set_models
        <[model := mkModel (reactions m) (metabolites m)
                     {[ "EX_photon_h" := 1%float ]} Max]> w))
  ∧ (is_Some (reactions m !! "EX_photon_h_Day") →
     reactions m !! "Biomass_Total" = None →
     configure_diel_tomato_model model w =
       (Raise (AttributeError "Biomass_Total"),
        set_models
          <[model := mkModel (reactions m) (metabolites m)
                       {[ "EX_photon_h_Day" := 1%float ]} Max]> w)).
Proof.
  intros Hm. split; intros Hobj Hr.
  - by apply (configure_missing_fixed model "EX_photon_h" "BIOMASS_STEM" m).
  - by apply (configure_missing_fixed model "EX_photon_h_Day" "Biomass_Total" m).
Qed.

Lemma configuration_stops_half_done_witness :
  configure_original_model 1%positive (Edge.world_of Edge.no_biomass)
  = (Raise (AttributeError "BIOMASS_STEM"),
     Edge.world_of (objective_set "EX_photon_h" Edge.no_biomass))
  ∧ configure_diel_tomato_model 1%positive (Edge.world_of Edge.no_biomass_total)
    = (Raise (AttributeError "Biomass_Total"),
       Edge.world_of (objective_set "EX_photon_h_Day" Edge.no_biomass_total)).
Proof.
  split.
  - etrans.
    + apply (proj1 (configuration_stops_half_done 1%positive Edge.no_biomass
                      (Edge.world_of Edge.no_biomass) eq_refl));
        [eexists|]; reflexivity.
    + vm_compute. reflexivity.
  - etrans.
    + apply (proj2 (configuration_stops_half_done 1%positive Edge.no_biomass_total
                      (Edge.world_of Edge.no_biomass_total) eq_refl));
        [eexists|]; reflexivity.
    + vm_compute. reflexivity.
Defined.

(** X7: a configuration block that succeeded can be run again on the same
    model without any further effect: the second run succeeds and leaves
    the world the first one left. *)
Theorem configuration_is_idempotent model w w' :
  (configure_original_model model w = (Ok (), w') →
   configure_original_model model w' = (Ok (), w'))
  ∧ (configure_diel_tomato_model model w = (Ok (), w') →
     configure_diel_tomato_model model w' = (Ok (), w')).
Proof.
  assert (∀ objective_id fixed_id,
             configure model objective_id fixed_id w = (Ok (), w') →
             configure model objective_id fixed_id w' = (Ok (), w')) as Hidem.
  { intros o f Hrun.
    destruct (configure_Ok_inv _ _ _ _ _ Hrun) as (m & r & Hm & Hobj & Hr).
    rewrite (configure_Ok _ _ _ _ _ _ Hm Hobj Hr) in Hrun. injection Hrun as <-.
    erewrite configure_Ok; [| by apply lookup_insert_eq | cbn | cbn; apply lookup_insert_eq].
    - unfold set_models. cbn. by rewrite !insert_insert_eq.
    - destruct Hobj as [r0 Hobj]. rewrite lookup_insert.
      case_decide; eauto. }
  split; apply Hidem.
Qed.

Lemma configuration_is_idempotent_witness :
  configure_original_model 1%positive (configure_original_model 1%positive Toy.loaded).2
  = (Ok (), (configure_original_model 1%positive Toy.loaded).2)
  ∧ configure_diel_tomato_model 2%positive
      (configure_diel_tomato_model 2%positive Toy.loaded).2
    = (Ok (), (configure_diel_tomato_model 2%positive Toy.loaded).2).
Proof.
  split.
  - apply (proj1 (configuration_is_idempotent 1%positive Toy.loaded
                    (configure_original_model 1%positive Toy.loaded).2)).
    vm_compute. reflexivity.
  - apply (proj2 (configuration_is_idempotent 2%positive Toy.loaded
                    (configure_diel_tomato_model 2%positive Toy.loaded).2)).
    vm_compute. reflexivity.
Defined.

(** ** Loading and preparing, lines 16 to 24 *)

Lemma second_model_eq w (m : Model) :
  fresh (dom (<[first_model w := m]> (models w))) = second_model w.
Proof. unfold second_model. by rewrite !dom_insert_L. Qed.

Lemma first_model_fresh w : models w !! first_model w = None.
Proof. apply not_elem_of_dom. unfold first_model. apply is_fresh. Qed.

Lemma second_model_fresh w : models w !! second_model w = None.
Proof.
  apply not_elem_of_dom. intros Hin.
  apply (is_fresh (dom (<[first_model w := mkModel ∅ ∅ ∅ Min]> (models w)))).
  fold (second_model w). rewrite dom_insert_L. by apply elem_of_union_r.
Qed.

Lemma first_second_model_ne w : first_model w ≠ second_model w.
Proof.
  intros Heq.
  apply (is_fresh (dom (<[first_model w := mkModel ∅ ∅ ∅ Min]> (models w)))).
  fold (second_model w). rewrite <- Heq, dom_insert_L.
  by apply elem_of_union_l, elem_of_singleton.
Qed.

Section loading.
Context `{SbmlParser}.

Lemma read_sbml_model_Ok path document m w :
  disk w !! path = Some document →
  parse_sbml document = Ok m →
  read_sbml_model path w =
    (Ok (fresh (dom (models w))), set_models <[fresh (dom (models w)) := m]> w).
Proof. intros Hdoc Hparse. unfold read_sbml_model. by rewrite Hdoc, Hparse. Qed.

Lemma read_sbml_model_Ok_inv_file path model w w' :
  read_sbml_model path w = (Ok model, w') →
  ∃ document m, disk w !! path = Some document ∧ parse_sbml document = Ok m
                ∧ model = fresh (dom (models w))
                ∧ w' = set_models <[model := m]> w.
Proof.
  unfold read_sbml_model.
  destruct (disk w !! path) as [document|]; [|discriminate].
  destruct (parse_sbml document) as [m|e] eqn:Hparse; [|discriminate].
  intros [= <- <-]. by exists document, m.
Qed.

Lemma load_models_Ok m_nd m_d w :
  model_files w m_nd m_d →
  load_models w =
    (Ok (first_model w, second_model w),
     set_models (<[second_model w := m_d]> ∘ <[first_model w := m_nd]>) w).
Proof.
  intros [(doc_nd & Hdoc_nd & Hparse_nd) (doc_d & Hdoc_d & Hparse_d)].
  unfold load_models.
  erewrite bind_Ok; last by apply (read_sbml_model_Ok _ _ _ _ Hdoc_nd Hparse_nd).
  erewrite bind_Ok; last by apply (read_sbml_model_Ok _ doc_d m_d).
  cbn. fold (first_model w). by rewrite second_model_eq.
Qed.

Lemma load_models_Ok_inv_files a b w w' :
  load_models w = (Ok (a, b), w') →
  ∃ m_nd m_d, model_files w m_nd m_d.
Proof.
  unfold load_models.
  intros (a' & w1 & Hnd & H1)%bind_Ok_inv.
  apply read_sbml_model_Ok_inv_file in Hnd as (doc_nd & m_nd & Hdoc_nd & Hparse_nd & -> & ->).
  apply bind_Ok_inv in H1 as (b' & w2 & Hd & _).
  apply read_sbml_model_Ok_inv_file in Hd as (doc_d & m_d & Hdoc_d & Hparse_d & _).
  exists m_nd, m_d. split; eauto.
Qed.

Lemma prepare_models_Ok m_nd m_d w :
  model_files w m_nd m_d →
  has_named_reactions m_nd m_d →
  prepare_models w = (Ok (first_model w, second_model w), prepared m_nd m_d w).
Proof.
  intros Hfiles (Hobj_nd & Hfix_nd & Hobj_d & Hfix_d).
  pose proof (first_second_model_ne w) as Hne.
  unfold prepare_models.
  erewrite bind_Ok; last by apply load_models_Ok.
  cbv beta iota.
  change (configure_original_model (first_model w))
    with (configure (first_model w) "EX_photon_h" "BIOMASS_STEM").
  change (configure_diel_tomato_model (second_model w))
    with (configure (second_model w) "EX_photon_h_Day" "Biomass_Total").
  erewrite bind_Ok; last first.
  { apply (configure_configured _ _ _ m_nd); [|done..].
    cbn. rewrite lookup_insert_ne by done. apply lookup_insert_eq. }
  erewrite bind_Ok; last first.
  { apply (configure_configured _ _ _ m_d); [|done..].
    cbn. rewrite lookup_insert_ne by done. apply lookup_insert_eq. }
  unfold ret, prepared, set_models. cbn. do 2 f_equal.
  apply map_eq. intros l.
  destruct (decide (l = second_model w)) as [->|Hl2].
  { by rewrite !lookup_insert_eq. }
  rewrite !(lookup_insert_ne _ (second_model w)) by done.
  destruct (decide (l = first_model w)) as [->|Hl1].
  { by rewrite !lookup_insert_eq. }
  rewrite !(lookup_insert_ne _ (first_model w)) by done.
  by rewrite !lookup_insert_ne by done.
Qed.

Lemma prepare_models_Ok_inv a b w w' :
  prepare_models w = (Ok (a, b), w') →
  ∃ m_nd m_d, model_files w m_nd m_d ∧ has_named_reactions m_nd m_d.
Proof.
  intros Hrun. pose proof Hrun as Hrun'. unfold prepare_models in Hrun'.
  apply bind_Ok_inv in Hrun' as ([a' b'] & w1 & Hload & H1).
  destruct (load_models_Ok_inv_files _ _ _ _ Hload) as (m_nd & m_d & Hfiles).
  rewrite (load_models_Ok _ _ _ Hfiles) in Hload. injection Hload as <- <- <-.
  pose proof (first_second_model_ne w) as Hne.
  apply bind_Ok_inv in H1 as ([] & w2 & Hnd & H1).
  apply bind_Ok_inv in H1 as ([] & w3 & Hd & _).
  change (configure_original_model (first_model w))
    with (configure (first_model w) "EX_photon_h" "BIOMASS_STEM") in Hnd.
  change (configure_diel_tomato_model (second_model w))
    with (configure (second_model w) "EX_photon_h_Day" "Biomass_Total") in Hd.
  destruct (configure_Ok_inv _ _ _ _ _ Hnd) as (m1 & r1 & Hm1 & Hobj1 & Hr1).
  cbn in Hm1. rewrite lookup_insert_ne, lookup_insert_eq in Hm1 by done.
  injection Hm1 as <-.
  rewrite (configure_Ok _ _ _ m_nd r1) in Hnd; [|cbn|done..]; last first.
  { rewrite lookup_insert_ne by done. apply lookup_insert_eq. }
  injection Hnd as <-.
  destruct (configure_Ok_inv _ _ _ _ _ Hd) as (m2 & r2 & Hm2 & Hobj2 & Hr2).
  cbn in Hm2. rewrite lookup_insert_ne, lookup_insert_eq in Hm2 by done.
  injection Hm2 as <-.
  exists m_nd, m_d. split; [done|]. unfold has_named_reactions. eauto.
Qed.

End loading.

(** ** Whole runs, lines 16 to 38 *)

Lemma prepared_first m_nd m_d w :
  models (prepared m_nd m_d w) !! first_model w
  = Some (configured "EX_photon_h" "BIOMASS_STEM" m_nd).
Proof.
  cbn. rewrite lookup_insert_ne by (symmetry; apply first_second_model_ne).
  apply lookup_insert_eq.
Qed.

Lemma prepared_second m_nd m_d w :
  models (prepared m_nd m_d w) !! second_model w
  = Some (configured "EX_photon_h_Day" "Biomass_Total" m_d).
Proof. cbn. apply lookup_insert_eq. Qed.

Lemma prepared_old m_nd m_d w l :
  is_Some (models w !! l) → models (prepared m_nd m_d w) !! l = models w !! l.
Proof.
  intros [m Hl]. cbn.
  rewrite !lookup_insert_ne; [done| |].
  - intros <-. by rewrite first_model_fresh in Hl.
  - intros <-. by rewrite second_model_fresh in Hl.
Qed.

Section more_runs.
Context {the_parser : SbmlParser} {the_solver : LpSolver} {the_rendering : Rendering}.

Lemma pfba_Ok_inv model sol w w' :
  pfba model w = (Ok sol, w') →
  ∃ m, models w !! model = Some m ∧ solve_pfba m = Ok sol.
Proof.
  unfold pfba. cbn. destruct (models w !! model) as [m|]; [|discriminate].
  intros [= Hsol _]. eauto.
Qed.

Lemma QY_Ok a b w m_a m_b sol_a sol_b :
  models w !! a = Some m_a → models w !! b = Some m_b →
  solve_pfba m_a = Ok sol_a → solve_pfba m_b = Ok sol_b →
  QY a b w = (Ok (fluxes sol_a, fluxes sol_b), set_solves (λ calls, calls ++ [a; b]) w).
Proof.
  intros Ha Hb Sa Sb. unfold QY.
  erewrite bind_Ok; last by rewrite (pfba_Some _ _ _ Ha), Sa.
  erewrite bind_Ok; last by rewrite (pfba_Some _ m_b), Sb.
  unfold ret, set_solves. cbn. by rewrite <- app_assoc.
Qed.

Lemma QY_Raise_first a b w m_a e :
  models w !! a = Some m_a → solve_pfba m_a = Raise e →
  QY a b w = (Raise e, set_solves (λ calls, calls ++ [a]) w).
Proof.
  intros Ha Sa. unfold QY.
  erewrite bind_Raise; [done|]. by rewrite (pfba_Some _ _ _ Ha), Sa.
Qed.

Lemma QY_Ok_inv a b nd d w w' :
  QY a b w = (Ok (nd, d), w') →
  ∃ m_a m_b sol_a sol_b,
    models w !! a = Some m_a ∧ models w !! b = Some m_b
    ∧ solve_pfba m_a = Ok sol_a ∧ solve_pfba m_b = Ok sol_b
    ∧ nd = fluxes sol_a ∧ d = fluxes sol_b.
Proof.
  unfold QY. intros (sol_a & w1 & Ha & H1)%bind_Ok_inv.
  apply bind_Ok_inv in H1 as (sol_b & w2 & Hb & H1).
  injection H1 as <- <- _.
  pose proof (pfba_models a w) as Hmodels. rewrite Ha in Hmodels. cbn in Hmodels.
  apply pfba_Ok_inv in Ha as (m_a & Hm_a & Hsol_a).
  apply pfba_Ok_inv in Hb as (m_b & Hm_b & Hsol_b).
  rewrite Hmodels in Hm_b.
  by exists m_a, m_b, sol_a, sol_b.
Qed.

Lemma solve_models_Ok m_nd m_d sol_nd sol_d w :
  model_files w m_nd m_d →
  has_named_reactions m_nd m_d →
  solve_pfba (configured "EX_photon_h" "BIOMASS_STEM" m_nd) = Ok sol_nd →
  solve_pfba (configured "EX_photon_h_Day" "Biomass_Total" m_d) = Ok sol_d →
  solve_models w =
    (Ok (fluxes sol_nd, fluxes sol_d),
     set_solves (λ calls, calls ++ [first_model w; second_model w])
       (prepared m_nd m_d w)).
Proof.
  intros Hfiles Hnamed Hsol_nd Hsol_d. unfold solve_models.
  erewrite bind_Ok; last by apply prepare_models_Ok.
  cbv beta iota.
  by apply (QY_Ok _ _ _ _ _ _ _
              (prepared_first m_nd m_d w) (prepared_second m_nd m_d w)).
Qed.

Lemma solve_models_Ok_inv nd d w w' :
  solve_models w = (Ok (nd, d), w') →
  ∃ m_nd m_d sol_nd sol_d,
    model_files w m_nd m_d ∧ has_named_reactions m_nd m_d
    ∧ solve_pfba (configured "EX_photon_h" "BIOMASS_STEM" m_nd) = Ok sol_nd
    ∧ solve_pfba (configured "EX_photon_h_Day" "Biomass_Total" m_d) = Ok sol_d
    ∧ nd = fluxes sol_nd ∧ d = fluxes sol_d.
Proof.
  unfold solve_models. intros ([a b] & w1 & Hprep & Hqy)%bind_Ok_inv.
  destruct (prepare_models_Ok_inv _ _ _ _ Hprep) as (m_nd & m_d & Hfiles & Hnamed).
  rewrite (prepare_models_Ok _ _ _ Hfiles Hnamed) in Hprep.
  injection Hprep as <- <- <-.
  apply QY_Ok_inv in Hqy
    as (m_a & m_b & sol_a & sol_b & Hm_a & Hm_b & Hsol_a & Hsol_b & -> & ->).
  rewrite prepared_first in Hm_a. rewrite prepared_second in Hm_b.
  injection Hm_a as <-. injection Hm_b as <-.
  by exists m_nd, m_d, sol_a, sol_b.
Qed.

(** The world a complete run leaves. *)
Lemma main_Ok m_nd m_d sol_nd sol_d a b c e w :
  model_files w m_nd m_d →
  has_named_reactions m_nd m_d →
  solve_pfba (configured "EX_photon_h" "BIOMASS_STEM" m_nd) = Ok sol_nd →
  solve_pfba (configured "EX_photon_h_Day" "Biomass_Total" m_d) = Ok sol_d →
  fluxes sol_nd !! "RBPCh" = Some a → fluxes sol_nd !! "EX_photon_h" = Some b →
  fluxes sol_d !! "RBPCh_Day" = Some c → fluxes sol_d !! "EX_photon_h_Day" = Some e →
  main w =
    (Ok (),
     set_stdout
       (λ out, out ++ [frame_to_string (tabel_of (ratio a b) (ratio c e)) +:+ nl])
       (set_disk
          <["QY_Tomato22.csv" := csv_text "," (tabel_of (ratio a b) (ratio c e))]>
          (set_frames
             <[fresh (dom (frames w)) := tabel_of (ratio a b) (ratio c e)]>
             (set_solves (λ calls, calls ++ [first_model w; second_model w])
                (prepared m_nd m_d w))))).
Proof.
  intros Hfiles Hnamed Hsol_nd Hsol_d Ha Hb Hc He. unfold main.
  erewrite bind_Ok; last by apply solve_models_Ok.
  cbv beta iota.
  by rewrite (report_Ok _ _ _ _ _ _ _ Ha Hb Hc He).
Qed.

Lemma main_Ok_inv_inputs w w' :
  main w = (Ok (), w') →
  ∃ m_nd m_d sol_nd sol_d a b c e,
    model_files w m_nd m_d ∧ has_named_reactions m_nd m_d
    ∧ solve_pfba (configured "EX_photon_h" "BIOMASS_STEM" m_nd) = Ok sol_nd
    ∧ solve_pfba (configured "EX_photon_h_Day" "Biomass_Total" m_d) = Ok sol_d
    ∧ fluxes sol_nd !! "RBPCh" = Some a ∧ fluxes sol_nd !! "EX_photon_h" = Some b
    ∧ fluxes sol_d !! "RBPCh_Day" = Some c ∧ fluxes sol_d !! "EX_photon_h_Day" = Some e.
Proof.
  intros (nd & d & w1 & Hsolve & Hreport)%main_Ok_inv.
  apply solve_models_Ok_inv in Hsolve
    as (m_nd & m_d & sol_nd & sol_d & Hfiles & Hnamed & Hsol_nd & Hsol_d & -> & ->).
  apply report_Ok_inv in Hreport as (a & b & c & e & Ha & Hb & Hc & He).
  exists m_nd, m_d, sol_nd, sol_d, a, b, c, e. by split_and!.
Qed.


End more_runs.

Section run_properties.
Context {the_parser : SbmlParser} {the_solver : LpSolver} {the_rendering : Rendering}.




(** X11: when the solver raises on the configured non-diel model, the run
    ends with that exception; only the non-diel model was handed to pfba,
    and no file is written and nothing printed. *)
Theorem solver_failure_ends_run m_nd m_d e w :
  model_files w m_nd m_d →
  has_named_reactions m_nd m_d →
  solve_pfba (configured "EX_photon_h" "BIOMASS_STEM" m_nd) = Raise e →
  ∃ w',
    main w = (Raise e, w')
    ∧ solves w' = solves w ++ [first_model w]
    ∧ disk w' = disk w ∧ stdout w' = stdout w.
Proof.
  intros Hfiles Hnamed Hsol. eexists. split.
  - unfold main, solve_models.
    erewrite bind_Raise; [done|].
    erewrite bind_Ok; last by apply prepare_models_Ok.
    cbv beta iota.
    by apply (QY_Raise_first _ _ _ _ _ (prepared_first m_nd m_d w)).
  - done.
Qed.

(** X12: a missing model file ends the run with OSError naming its path.
    Without the non-diel file nothing at all has changed; with it but
    without the diel file, the non-diel model has been loaded as a new
    object, as parsed and not configured, and nothing else has changed. *)
Theorem missing_model_file_ends_run w :
  (disk w !! "../../../examples/models/tomato_Sl2183.xml" = None →
   main w = (Raise (OSError "../../../examples/models/tomato_Sl2183.xml"), w))
  ∧ (∀ document m_nd,
        disk w !! "../../../examples/models/tomato_Sl2183.xml" = Some document →
        parse_sbml document = Ok m_nd →
        disk w !! "../../../examples/models/diel_tomato2022_model_wo_nitrate.xml" = None →
        main w =
          (Raise (OSError "../../../examples/models/diel_tomato2022_model_wo_nitrate.xml"),
           set_models <[first_model w := m_nd]> w)).
Proof.
  split.
  - intros Hnone. unfold main, solve_models, prepare_models, load_models.
    do 4 (erewrite bind_Raise; [done|]).
    unfold read_sbml_model.
    change (os_path_join ".." [".."; ".."; "examples"; "models"; "tomato_Sl2183.xml"])
      with "../../../examples/models/tomato_Sl2183.xml".
    by rewrite Hnone.
  - intros document m_nd Hdoc Hparse Hnone.
    unfold main, solve_models, prepare_models, load_models.
    do 3 (erewrite bind_Raise; [done|]).
    erewrite bind_Ok; last by apply (read_sbml_model_Ok _ document m_nd).
    erewrite bind_Raise; [done|].
    unfold read_sbml_model.
    change (os_path_join ".."
              [".."; ".."; "examples"; "models"; "diel_tomato2022_model_wo_nitrate.xml"])
      with "../../../examples/models/diel_tomato2022_model_wo_nitrate.xml".
    cbn. by rewrite Hnone.
Qed.

(** X13: a successful run works on objects of its own.  The two models it
    solves are two distinct objects that did not exist before; every model
    and table object that existed before is as it was; exactly one table
    object is new. *)
Theorem successful_run_touches_only_new_objects w w' :
  main w = (Ok (), w') →
  ∃ a b t,
    solves w' = solves w ++ [a; b]
    ∧ a ≠ b ∧ models w !! a = None ∧ models w !! b = None
    ∧ (∀ l, is_Some (models w !! l) → models w' !! l = models w !! l)
    ∧ dom (models w') = {[a; b]} ∪ dom (models w)
    ∧ frames w !! t = None
    ∧ (∀ t', t' ≠ t → frames w' !! t' = frames w !! t')
    ∧ is_Some (frames w' !! t).
Proof.
  intros Hrun.
  destruct (main_Ok_inv_inputs _ _ Hrun)
    as (m_nd & m_d & sol_nd & sol_d & a & b & c & e
        & Hfiles & Hnamed & Hsol_nd & Hsol_d & Ha & Hb & Hc & He).
  rewrite (main_Ok _ _ _ _ _ _ _ _ _ Hfiles Hnamed Hsol_nd Hsol_d Ha Hb Hc He) in Hrun.
  injection Hrun as <-.
  exists (first_model w), (second_model w), (fresh (dom (frames w))).
  split_and!.
  - done.
  - apply first_second_model_ne.
  - apply first_model_fresh.
  - apply second_model_fresh.
  - intros l Hl. by apply (prepared_old m_nd m_d).
  - cbn. rewrite !dom_insert_L.
    by rewrite (assoc_L (∪)), (comm_L (∪) {[second_model w]}).
  - apply not_elem_of_dom, is_fresh.
  - intros t' Hne. cbn. by rewrite lookup_insert_ne.
  - cbn. rewrite lookup_insert_eq. eauto.
Qed.

End run_properties.

(** ** The whole-run statements at concrete worlds *)

Lemma toy_model_files : @model_files Toy.parser Toy.world Toy.tomato Toy.diel_tomato.
Proof. split; eexists; split; reflexivity. Qed.


Lemma toy_named_reactions : has_named_reactions Toy.tomato Toy.diel_tomato.
Proof. repeat split; eexists; reflexivity. Qed.




Lemma solver_failure_ends_run_witness :
  ∃ w',
    @main Toy.parser Toy.failing_solver Toy.rendering Toy.world
    = (Raise (OptimizationError "infeasible"), w')
    ∧ solves w' = solves Toy.world ++ [first_model Toy.world]
    ∧ disk w' = disk Toy.world ∧ stdout w' = stdout Toy.world.
Proof.
  apply (@solver_failure_ends_run Toy.parser Toy.failing_solver Toy.rendering
           Toy.tomato Toy.diel_tomato (OptimizationError "infeasible") Toy.world
           toy_model_files toy_named_reactions).
  reflexivity.
Defined.

(** X12 with no file at all, and with the non-diel file only. *)
Lemma missing_model_file_ends_run_witness :
  @main Toy.parser Toy.solver Toy.rendering Edge.bare
  = (Raise (OSError "../../../examples/models/tomato_Sl2183.xml"), Edge.bare)
  ∧ @main Toy.parser Toy.solver Toy.rendering Edge.tomato_only
    = (Raise (OSError "../../../examples/models/diel_tomato2022_model_wo_nitrate.xml"),
       set_models <[first_model Edge.tomato_only := Toy.tomato]> Edge.tomato_only).
Proof.
  split.
  - apply (proj1 (@missing_model_file_ends_run Toy.parser Toy.solver Toy.rendering
                    Edge.bare)).
    reflexivity.
  - apply (proj2 (@missing_model_file_ends_run Toy.parser Toy.solver Toy.rendering
                    Edge.tomato_only) "<sbml>tomato</sbml>" Toy.tomato);
      reflexivity.
Defined.

(** X13 for the run in the busier world: object 5 and table 1 stay. *)
Lemma successful_run_touches_only_new_objects_witness :
  ∃ a b t,
    solves (@main Toy.parser Toy.solver Toy.rendering Edge.busy).2
    = solves Edge.busy ++ [a; b]
    ∧ a ≠ b ∧ models Edge.busy !! a = None ∧ models Edge.busy !! b = None
    ∧ (∀ l, is_Some (models Edge.busy !! l) →
            models (@main Toy.parser Toy.solver Toy.rendering Edge.busy).2 !! l
            = models Edge.busy !! l)
    ∧ dom (models (@main Toy.parser Toy.solver Toy.rendering Edge.busy).2)
      = {[a; b]} ∪ dom (models Edge.busy)
    ∧ frames Edge.busy !! t = None
    ∧ (∀ t', t' ≠ t →
             frames (@main Toy.parser Toy.solver Toy.rendering Edge.busy).2 !! t'
             = frames Edge.busy !! t')
    ∧ is_Some (frames (@main Toy.parser Toy.solver Toy.rendering Edge.busy).2 !! t).
Proof.
  apply (@successful_run_touches_only_new_objects Toy.parser Toy.solver Toy.rendering
           Edge.busy).
  vm_compute. reflexivity.
Defined.
